(** * The game of Hacker: the simulation engine of [a3.py]

    A shallow embedding of the classes [Entity], [Grid] and [Game] of
    [src/The-game-of-Hacker/a3.py], and the properties of the engine that
    the specification states about them.

    Conventions.
    - Python integers are [Z]; strings are [string].
    - A Python [dict] keeps its insertion order and [Game.step] leaves its
      loop early, so a dict is an association list in insertion order with
      unique keys ([Dict]).
    - A method that can raise returns an [outcome] (or a [result] for a
      pure computation): the exception together with the state of the
      object at the moment it propagates.
    - The module [random] is not part of the program; the raw outcomes of
      the draws of one tick are passed to [Game.step] as a [Draws] record
      and reduced into the range the library call promises. *)

From Stdlib Require Import ZArith List String Ascii Bool Lia.
Import ListNotations.
Open Scope Z_scope.

(** ** Exceptions and results *)

Inductive exn : Type :=
| ValueError
| IndexError
| ZeroDivisionError
| NotImplementedError.

Inductive result (A : Type) : Type :=
| Ok (a : A)
| Raise (e : exn).

Arguments Ok {A} a.
Arguments Raise {A} e.

Definition bind {A B : Type} (r : result A) (k : A -> result B) : result B :=
  match r with
  | Ok a => k a
  | Raise e => Raise e
  end.

Notation "x <- r ;; k" := (bind r (fun x => k))
  (at level 61, r at next level, right associativity).

(** ** Python built-ins used by the engine *)

(** [range(a, b)] *)
Definition range (a b : Z) : list Z :=
  map (fun i => a + Z.of_nat i) (seq 0 (Z.to_nat (b - a))).

(** [a % b]: floor modulo (the result has the sign of [b]), and
    [ZeroDivisionError] when [b] is 0. *)
Definition py_mod (a b : Z) : result Z :=
  if b =? 0 then Raise ZeroDivisionError else Ok (a mod b).

(** [a // b]: floor division, and [ZeroDivisionError] when [b] is 0. *)
Definition py_floordiv (a b : Z) : result Z :=
  if b =? 0 then Raise ZeroDivisionError else Ok (a / b).

(** [seq.index(v)] on a tuple of strings: the first index holding [v],
    [ValueError] when there is none. *)
Fixpoint index (l : list string) (v : string) : result Z :=
  match l with
  | [] => Raise ValueError
  | s :: l' => if String.eqb s v then Ok 0 else i <- index l' v ;; Ok (i + 1)
  end.

(** [seq[i]] for an index [i >= 0] ([index] returns no other), with
    [IndexError] past the end. *)
Definition getitem {A : Type} (l : list A) (i : Z) : result A :=
  match nth_error l (Z.to_nat i) with
  | Some a => Ok a
  | None => Raise IndexError
  end.

(** ** The module [random]

    Each call consumes raw naturals chosen by the environment; the
    functions below map them onto the values the library call can return,
    and raise where the library raises. *)
Module Random.

(** [random.randint(a, b)]: an integer of [a..b]; [ValueError] on the
    empty range. *)
Definition randint (a b : Z) (raw : nat) : result Z :=
  if b <? a then Raise ValueError
  else Ok (a + Z.of_nat raw mod (b - a + 1)).

(** [random.choices(population, k=k)]: [k] draws with replacement. *)
Definition choices (population : list string) (k : Z) (raw : nat -> nat)
  : result (list string) :=
  match population with
  | [] => if k <=? 0 then Ok [] else Raise IndexError
  | s :: _ =>
      Ok (map (fun i => nth (raw i mod List.length population)%nat population s)
              (seq 0 (Z.to_nat k)))
  end.

(** Removal of the element at index [j]. *)
Fixpoint remove_nth (j : nat) (pool : list Z) {struct pool} : list Z :=
  match pool with
  | [] => []
  | a :: pool' =>
      match j with
      | O => pool'
      | S j' => a :: remove_nth j' pool'
      end
  end.

(** [k] draws without replacement: draw number [i] takes the element at
    index [raw i mod len(pool)] out of what is left of the pool. *)
Fixpoint draw_distinct (pool : list Z) (k : nat) (raw : nat -> nat) (i : nat)
  : list Z :=
  match k with
  | O => []
  | S k' =>
      let j := (raw i mod List.length pool)%nat in
      match nth_error pool j with
      | Some a => a :: draw_distinct (remove_nth j pool) k' raw (S i)
      | None => []
      end
  end.

(** [random.sample(population, k)]: [k] distinct elements;
    [ValueError] when [k] is negative or larger than the population. *)
Definition sample (population : list Z) (k : Z) (raw : nat -> nat)
  : result (list Z) :=
  if (k <? 0) || (Z.of_nat (List.length population) <? k) then Raise ValueError
  else Ok (draw_distinct population (Z.to_nat k) raw 0).

End Random.

(** The raw outcomes of the four draws of [Game.generate_entities]. *)
Record Draws : Type := mkDraws {
  raw_count : nat;          (* entity_count = random.randint(...) *)
  raw_kinds : nat -> nat;   (* random.choices(ENTITY_TYPES, ...)  *)
  raw_blocker : nat;        (* random.randint(1, 4)               *)
  raw_sample : nat -> nat   (* random.sample(range(size), ...)    *)
}.

(** ** [a3_support]: positions and constants

    The module [a3_support] is imported by [a3.py] and is not part of the
    sources at hand. *)

(** Modelled from the spec: the class [Position] of [a3_support], a pair
    (x, y) of integers, immutable, with structural equality and hashing. *)
Record Position : Type := mkPosition { get_x : Z; get_y : Z }.

Definition Position_eqb (p q : Position) : bool :=
  (get_x p =? get_x q) && (get_y p =? get_y q).

(** Modelled from the spec: the display characters of [a3_support], which
    the docstrings of [Entity.display] in [a3.py] repeat. *)
Definition PLAYER : string := "P".
Definition DESTROYABLE : string := "D".
Definition COLLECTABLE : string := "C".
Definition BLOCKER : string := "B".

(** Modelled from the spec: the two core kinds that [random.choices]
    draws from. *)
Definition ENTITY_TYPES : list string := [COLLECTABLE; DESTROYABLE].

(** Modelled from the spec: the offset of one tick; the docstring of
    [Game.step] gives the same value. *)
Definition MOVE : Z * Z := (0, -1).

(** The constants of [a3_support] whose values neither the sources nor the
    specification fix: the direction keys with their offsets, the names of
    the two shot types and the collection target. *)
Record Support : Type := mkSupport {
  DIRECTIONS : list string;
  ROTATIONS : list (Z * Z);
  DESTROY : string;
  COLLECT : string;
  COLLECTION_TARGET : Z
}.

(** Modelled from the spec: one admissible choice of these constants, two
    directions with the x-offsets -1 and +1 and no y-change. *)
Definition a3_support : Support :=
  {| DIRECTIONS := ["A"; "D"]%string;
     ROTATIONS := [(-1, 0); (1, 0)];
     DESTROY := "SPACE";
     COLLECT := "RETURN";
     COLLECTION_TARGET := 7 |}.

(** ** Entities *)

(** The four subclasses of [Entity]. An instance carries no state, so an
    entity is the class it was built from. *)
Inductive Entity : Type :=
| Player
| Destroyable
| Collectable
| Blocker.

Definition Entity_eqb (a b : Entity) : bool :=
  match a, b with
  | Player, Player | Destroyable, Destroyable
  | Collectable, Collectable | Blocker, Blocker => true
  | _, _ => false
  end.

(** [entity.display()] *)
Definition display (e : Entity) : string :=
  match e with
  | Player => PLAYER
  | Destroyable => DESTROYABLE
  | Collectable => COLLECTABLE
  | Blocker => BLOCKER
  end.

(** [isinstance(entity, cls)]: none of the four classes inherits from
    another. *)
Definition isinstance (entity : Entity) (cls : Entity) : bool :=
  Entity_eqb entity cls.

(** The two sorts of Python object that [Game._create_entity] compares
    with [==]: a string and a class object. *)
Inductive pyobj : Type :=
| PyStr (s : string)
| PyClass (cls : Entity).

(** [a == b]: strings compare by value, class objects by identity, and a
    string is never equal to a class object. *)
Definition py_eq (a b : pyobj) : bool :=
  match a, b with
  | PyStr s, PyStr t => String.eqb s t
  | PyClass c, PyClass d => Entity_eqb c d
  | _, _ => false
  end.

(** ** Dictionaries keyed by positions *)
Module Dict.

Definition t : Type := list (Position * Entity).

(** [d.get(k)] *)
Fixpoint get (d : t) (k : Position) : option Entity :=
  match d with
  | [] => None
  | (k', v) :: d' => if Position_eqb k' k then Some v else get d' k
  end.

(** [d[k] = v]: a present key keeps its place, a new key goes last. *)
Fixpoint set (d : t) (k : Position) (v : Entity) : t :=
  match d with
  | [] => [(k, v)]
  | (k', v') :: d' =>
      if Position_eqb k' k then (k', v) :: d' else (k', v') :: set d' k v
  end.

(** [k in d] *)
Definition mem (d : t) (k : Position) : bool :=
  match get d k with
  | Some _ => true
  | None => false
  end.

(** [d.pop(k)] for a key that is present *)
Fixpoint pop (d : t) (k : Position) : t :=
  match d with
  | [] => []
  | (k', v) :: d' => if Position_eqb k' k then d' else (k', v) :: pop d' k
  end.

Definition keys (d : t) : list Position := map fst d.

End Dict.

(** ** class Grid *)
Module Grid.

Record t : Type := mk { _size : Z; _entities : Dict.t }.

(** [Grid(size)] *)
Definition init (size : Z) : t := {| _size := size; _entities := [] |}.

Definition get_size (self : t) : Z := _size self.

Definition in_bounds (self : t) (position : Position) : bool :=
  ((0 <=? get_x position) && (get_x position <? _size self))
  && ((1 <=? get_y position) && (get_y position <? _size self)).

Definition add_entity (self : t) (position : Position) (entity : Entity) : t :=
  if in_bounds self position
  then {| _size := _size self;
          _entities := Dict.set (_entities self) position entity |}
  else self.

Definition get_entities (self : t) : Dict.t := _entities self.

Definition get_entity (self : t) (position : Position) : option Entity :=
  Dict.get (_entities self) position.

Definition remove_entity (self : t) (position : Position) : t :=
  if Dict.mem (_entities self) position
  then {| _size := _size self;
          _entities := Dict.pop (_entities self) position |}
  else self.

Definition serialise (self : t) : list ((Z * Z) * string) :=
  map (fun '(position, entity) =>
         ((get_x position, get_y position), display entity))
      (_entities self).

Definition renew_entities (self : t) (entities : Dict.t) : t :=
  {| _size := _size self; _entities := entities |}.

End Grid.

(** ** class Game *)
Module Game.

Record t : Type := mk {
  _size : Z;
  _game_over : bool;
  _grid : Grid.t;
  _player_position : Position;
  _num_collected : Z;
  _num_destroyed : Z;
  _total_shots : Z
}.

(** What a call of a method leaves behind: the object after a normal
    return, or the exception with the object as it is when the exception
    leaves the method. *)
Inductive outcome : Type :=
| Returned (self : t)
| Raised (e : exn) (self : t).

Definition state_of (o : outcome) : t :=
  match o with
  | Returned self => self
  | Raised _ self => self
  end.

(** [Game(size)] *)
Definition init (size : Z) : t :=
  {| _size := size;
     _game_over := false;
     _grid := Grid.init size;
     _player_position := mkPosition (size / 2) 0;
     _num_collected := 0;
     _num_destroyed := 0;
     _total_shots := 0 |}.

Definition get_grid (self : t) : Grid.t := _grid self.
Definition get_player_position (self : t) : Position := _player_position self.
Definition get_num_collected (self : t) : Z := _num_collected self.
Definition get_num_destroyed (self : t) : Z := _num_destroyed self.
Definition get_total_shots (self : t) : Z := _total_shots self.

(** Assignment to one attribute. *)
Definition set_grid (self : t) (grid : Grid.t) : t :=
  mk (_size self) (_game_over self) grid (_player_position self)
     (_num_collected self) (_num_destroyed self) (_total_shots self).

Definition set_game_over (self : t) (b : bool) : t :=
  mk (_size self) b (_grid self) (_player_position self)
     (_num_collected self) (_num_destroyed self) (_total_shots self).

Definition set_num_collected (self : t) (n : Z) : t :=
  mk (_size self) (_game_over self) (_grid self) (_player_position self)
     n (_num_destroyed self) (_total_shots self).

Definition set_num_destroyed (self : t) (n : Z) : t :=
  mk (_size self) (_game_over self) (_grid self) (_player_position self)
     (_num_collected self) n (_total_shots self).

Definition set_total_shots (self : t) (n : Z) : t :=
  mk (_size self) (_game_over self) (_grid self) (_player_position self)
     (_num_collected self) (_num_destroyed self) n.

(** *** rotate_grid *)

(** The loop of [rotate_grid] over the items of the old dictionary, filling
    the local dictionary [new_entities]. *)
Fixpoint rotate_loop (size dx : Z) (items : Dict.t) (new_entities : Dict.t)
  : result Dict.t :=
  match items with
  | [] => Ok new_entities
  | (current_position, entity) :: rest =>
      x <- py_mod (get_x current_position + dx) size ;;
      rotate_loop size dx rest
        (Dict.set new_entities (mkPosition x (get_y current_position)) entity)
  end.

Section Rotations.

Context (sup : Support).

(** The two look-ups that open [rotate_grid]:
    [ROTATIONS[DIRECTIONS.index(direction)]]. *)
Definition next_pos (direction : string) : result (Z * Z) :=
  i <- index (DIRECTIONS sup) direction ;;
  getitem (ROTATIONS sup) i.

Definition rotate_grid (self : t) (direction : string) : outcome :=
  match
    (np <- next_pos direction ;;
     rotate_loop (_size self) (fst np) (Grid.get_entities (_grid self)) [])
  with
  | Ok new_entities =>
      Returned (set_grid self (Grid.renew_entities (_grid self) new_entities))
  | Raise e => Raised e self
  end.

End Rotations.

(** *** _create_entity

    The first test compares the string [display] with the class [Player],
    as the source does. *)
Definition _create_entity (display : string) : result Entity :=
  if py_eq (PyStr display) (PyClass Player) then Ok Player
  else if py_eq (PyStr display) (PyStr DESTROYABLE) then Ok Destroyable
  else if py_eq (PyStr display) (PyStr COLLECTABLE) then Ok Collectable
  else if py_eq (PyStr display) (PyStr BLOCKER) then Ok Blocker
  else Raise NotImplementedError.

(** *** generate_entities *)

(** The draws: the kinds to spawn paired with their columns,
    [zip(entity_index, entities)]. *)
Definition spawn_plan (size : Z) (rnd : Draws) : result (list (Z * string)) :=
  entity_count <- Random.randint 0 (size - 3) (raw_count rnd) ;;
  entities <- Random.choices ENTITY_TYPES entity_count (raw_kinds rnd) ;;
  r <- Random.randint 1 4 (raw_blocker rnd) ;;
  let blocker := r mod 4 =? 0 in
  let total_count := if blocker then entity_count + 1 else entity_count in
  let entities := if blocker then entities ++ [BLOCKER] else entities in
  entity_index <- Random.sample (range 0 size) total_count (raw_sample rnd) ;;
  Ok (combine entity_index entities).

(** The loop that adds the entities to the grid. *)
Fixpoint spawn_loop (self : t) (plan : list (Z * string)) : outcome :=
  match plan with
  | [] => Returned self
  | (pos, entity) :: rest =>
      let position := mkPosition pos (Grid.get_size (get_grid self) - 1) in
      match _create_entity entity with
      | Raise e => Raised e self
      | Ok new_entity =>
          spawn_loop
            (set_grid self (Grid.add_entity (get_grid self) position new_entity))
            rest
      end
  end.

Definition generate_entities (self : t) (rnd : Draws) : outcome :=
  match spawn_plan (Grid.get_size (get_grid self)) rnd with
  | Raise e => Raised e self
  | Ok plan => spawn_loop self plan
  end.

(** *** step *)

(** The gravity loop of [step]: the dictionary [new_entities] it fills,
    and whether it was left by [break] (a Destroyable fell off). *)
Fixpoint gravity_loop (items : Dict.t) (new_entities : Dict.t)
  : Dict.t * bool :=
  match items with
  | [] => (new_entities, false)
  | (position, entity) :: rest =>
      let y := get_y position + snd MOVE in
      if 1 <=? y
      then gravity_loop rest
             (Dict.set new_entities (mkPosition (get_x position) y) entity)
      else if isinstance entity Destroyable
           then (new_entities, true)
           else gravity_loop rest new_entities
  end.

(** [step] up to and including [renew_entities]. *)
Definition gravity (self : t) : t :=
  let '(new_entities, lost) :=
    gravity_loop (Grid.get_entities (_grid self)) [] in
  let self := if lost then set_game_over self true else self in
  set_grid self (Grid.renew_entities (_grid self) new_entities).

Definition step (self : t) (rnd : Draws) : outcome :=
  generate_entities (gravity self) rnd.

(** *** fire *)

Section Shots.

Context (sup : Support).

(** The scan of the player's column, [for y in range(1, self._size)]. *)
Fixpoint fire_loop (self : t) (shot_type : string) (x : Z) (ys : list Z) : t :=
  match ys with
  | [] => self
  | y :: ys' =>
      let position := mkPosition x y in
      match Grid.get_entity (_grid self) position with
      | None => fire_loop self shot_type x ys'
      | Some entity =>
          if isinstance entity Blocker then self
          else if isinstance entity Destroyable then
            if String.eqb shot_type (DESTROY sup)
            then set_grid
                   (set_num_destroyed self (_num_destroyed self + 1))
                   (Grid.remove_entity (_grid self) position)
            else self
          else if isinstance entity Collectable then
            if String.eqb shot_type (COLLECT sup)
            then set_grid
                   (set_num_collected self (_num_collected self + 1))
                   (Grid.remove_entity (_grid self) position)
            else self
          else fire_loop self shot_type x ys'
      end
  end.

Definition fire (self : t) (shot_type : string) : t :=
  let self := set_total_shots self (_total_shots self + 1) in
  let x := get_x (_player_position self) in
  fire_loop self shot_type x (range 1 (_size self)).

Definition has_won (self : t) : bool :=
  COLLECTION_TARGET sup <=? _num_collected self.

Definition has_lost (self : t) : bool := _game_over self.

End Shots.

End Game.

(** ** class AbstractField

    The geometry of the view: the attributes that [__init__] computes and
    the three methods that convert between cells and pixels. The canvas
    itself, which these methods do not touch, is not part of the model. *)
Module AbstractField.

Record t : Type := mk {
  _rows : Z;
  _cols : Z;
  _width : Z;
  _height : Z;
  _cell_width : Z;
  _cell_height : Z
}.

(** [AbstractField(master, rows, cols, width, height)] *)
Definition init (rows cols width height : Z) : result t :=
  cell_width <- py_floordiv width cols ;;
  cell_height <- py_floordiv height rows ;;
  Ok {| _rows := rows; _cols := cols; _width := width; _height := height;
        _cell_width := cell_width; _cell_height := cell_height |}.

Definition get_bbox (self : t) (position : Z * Z) : Z * Z * Z * Z :=
  let '(x, y) := position in
  let x_min := x * _cell_width self in
  let y_min := y * _cell_height self in
  let x_max := x_min + _cell_width self in
  let y_max := y_min + _cell_height self in
  (x_min, y_min, x_max, y_max).

Definition pixel_to_position (self : t) (pixel : Z * Z) : result (Z * Z) :=
  let '(x_pixel, y_pixel) := pixel in
  x <- py_floordiv x_pixel (_cell_width self) ;;
  y <- py_floordiv y_pixel (_cell_height self) ;;
  Ok (x, y).

Definition get_position_center (self : t) (position : Z * Z) : Z * Z :=
  let '(x_min, y_min, x_max, y_max) := get_bbox self position in
  ((x_min + x_max) / 2, (y_min + y_max) / 2).

End AbstractField.

(** ** Sequences of calls *)

(** One call of the presentation layer into the engine. *)
Inductive call : Type :=
| RotateGrid (direction : string)
| Step (rnd : Draws)
| Fire (shot_type : string).

Definition exec (sup : Support) (self : Game.t) (c : call) : Game.outcome :=
  match c with
  | RotateGrid direction => Game.rotate_grid sup self direction
  | Step rnd => Game.step self rnd
  | Fire shot_type => Game.Returned (Game.fire sup self shot_type)
  end.

(** The game after a sequence of calls; a call that raised leaves the
    game as it was when the exception left the method. *)
Definition run (sup : Support) (self : Game.t) (calls : list call) : Game.t :=
  fold_left (fun g c => Game.state_of (exec sup g c)) calls self.

(** [rotate_grid(direction)] called [n] times in a row. *)
Fixpoint rotate_times (sup : Support) (direction : string) (n : nat)
  (self : Game.t) : Game.outcome :=
  match n with
  | O => Game.Returned self
  | S n' =>
      match Game.rotate_grid sup self direction with
      | Game.Returned self' => rotate_times sup direction n' self'
      | Game.Raised e self' => Game.Raised e self'
      end
  end.

(** ** Predicates of the statements *)

(** The bounds of the grid, as [Grid.in_bounds] tests them. *)
Definition in_grid (size : Z) (p : Position) : Prop :=
  (0 <= get_x p < size) /\ (1 <= get_y p < size).

(** A well-formed game: the grid has the size of the game, the keys of
    its dictionary are pairwise distinct and within the bounds. *)
Record wf (self : Game.t) : Prop := mk_wf {
  wf_size : Grid._size (Game._grid self) = Game._size self;
  wf_keys : NoDup (Dict.keys (Grid._entities (Game._grid self)));
  wf_bounds :
    Forall (in_grid (Game._size self))
           (Dict.keys (Grid._entities (Game._grid self)))
}.

(** The entry of the dictionary after a rotation by [dx]. *)
Definition rotated (size dx : Z) (item : Position * Entity)
  : Position * Entity :=
  (mkPosition ((get_x (fst item) + dx) mod size) (get_y (fst item)), snd item).

(** The entry of the dictionary after one tick of gravity. *)
Definition fallen (item : Position * Entity) : Position * Entity :=
  (mkPosition (get_x (fst item)) (get_y (fst item) + snd MOVE), snd item).

(** The three counters are non-negative, and every shot that collected
    or destroyed was counted as a shot. *)
Definition counters_ok (self : Game.t) : Prop :=
  0 <= Game._num_collected self /\
  0 <= Game._num_destroyed self /\
  0 <= Game._total_shots self /\
  Game._num_collected self + Game._num_destroyed self <= Game._total_shots self.

(** No counter of [self'] is below that of [self]. *)
Definition counters_le (self self' : Game.t) : Prop :=
  Game._num_collected self <= Game._num_collected self' /\
  Game._num_destroyed self <= Game._num_destroyed self' /\
  Game._total_shots self <= Game._total_shots self'.

(** The cell [(x, y0)] holds [entity] and is the lowest occupied cell of
    column [x] that the scan of [fire] visits. *)
Definition lowest_occupied (self : Game.t) (x y0 : Z) (entity : Entity) : Prop :=
  1 <= y0 < Game._size self /\
  Grid.get_entity (Game._grid self) (mkPosition x y0) = Some entity /\
  forall y, 1 <= y < y0 ->
            Grid.get_entity (Game._grid self) (mkPosition x y) = None.

(** The keys of a dictionary are pairwise distinct and within the
    bounds of a grid of side [size]. *)
Definition wf_dict (size : Z) (d : Dict.t) : Prop :=
  NoDup (Dict.keys d) /\ Forall (in_grid size) (Dict.keys d).

(** What one call may do to the counters: nothing, or one more shot that
    collected, destroyed or missed. *)
Definition counters_step (self self' : Game.t) : Prop :=
  let dc := Game._num_collected self' - Game._num_collected self in
  let dd := Game._num_destroyed self' - Game._num_destroyed self in
  let dt := Game._total_shots self' - Game._total_shots self in
  (dc = 0 /\ dd = 0 /\ 0 <= dt <= 1) \/
  (dc = 1 /\ dd = 0 /\ dt = 1) \/
  (dc = 0 /\ dd = 1 /\ dt = 1).

(** The kinds that [generate_entities] hands to [_create_entity]. *)
Definition spawnable (kind : string) : Prop :=
  kind = COLLECTABLE \/ kind = DESTROYABLE \/ kind = BLOCKER.

(** A grid that holds an entity has at least 3 columns. *)
Definition populated_size (self : Game.t) : Prop :=
  Grid.get_entities (Game.get_grid self) = [] \/
  3 <= Grid.get_size (Game.get_grid self).

(** No entity of the dictionary is a Player. *)
Definition no_player (d : Dict.t) : Prop :=
  Forall (fun item : Position * Entity => snd item <> Player) d.

(** ** Games and draws of the examples *)

(** No draws at all: the smallest count, the first kind, no blocker. *)
Definition no_draws : Draws := mkDraws 0 (fun _ => 0%nat) 1 (fun _ => 0%nat).

(** Draws that spawn a single Destroyable, in column 0. *)
Definition one_destroyable : Draws :=
  mkDraws 1 (fun _ => 1%nat) 1 (fun _ => 0%nat).

(** Four ticks that bring a Destroyable from the top row of a grid of
    size 5 down to row 1. *)
Definition falling_calls : list call :=
  [Step one_destroyable; Step no_draws; Step no_draws; Step no_draws].

(** A game of size 5 with a Collectable in the player's column, two rows
    above the player. *)
Definition collectable_ahead : Game.t :=
  Game.set_grid (Game.init 5)
    (Grid.add_entity (Grid.init 5) (mkPosition 2 2) Collectable).

(** A game of size 5 whose grid holds, in this order, a Destroyable in
    the lowest row and a Collectable in the top row. *)
Definition losing_game : Game.t :=
  Game.set_grid (Game.init 5)
    (Grid.add_entity
       (Grid.add_entity (Grid.init 5) (mkPosition 2 1) Destroyable)
       (mkPosition 3 4) Collectable).

(** A game of size 5 with a Blocker in the player's column, right above
    the player, and a Destroyable behind it. *)
Definition blocker_ahead : Game.t :=
  Game.set_grid (Game.init 5)
    (Grid.add_entity
       (Grid.add_entity (Grid.init 5) (mkPosition 2 1) Blocker)
       (mkPosition 2 2) Destroyable).

(** A game of size 2 with a Destroyable in its only row, column 0. *)
Definition small_losing_game : Game.t :=
  Game.set_grid (Game.init 2)
    (Grid.add_entity (Grid.init 2) (mkPosition 0 1) Destroyable).

(** A game of size 5 with a Collectable in the top row, column 3. *)
Definition collectable_on_top : Game.t :=
  Game.set_grid (Game.init 5)
    (Grid.add_entity (Grid.init 5) (mkPosition 3 4) Collectable).

(** Draws that spawn a single Collectable, in column 2. *)
Definition one_collectable : Draws :=
  mkDraws 1 (fun _ => 0%nat) 1 (fun _ => 2%nat).

(** The constants of [a3_support] with a collection target of 1. *)
Definition short_support : Support :=
  {| DIRECTIONS := DIRECTIONS a3_support;
     ROTATIONS := ROTATIONS a3_support;
     DESTROY := DESTROY a3_support;
     COLLECT := COLLECT a3_support;
     COLLECTION_TARGET := 1 |}.

(** * Properties *)

(** ** The scenarios of the specification, on a grid of size 5 *)

Example in_bounds_corners :
  Grid.in_bounds (Grid.init 5) (mkPosition 0 1) = true /\
  Grid.in_bounds (Grid.init 5) (mkPosition 4 4) = true /\
  Grid.in_bounds (Grid.init 5) (mkPosition 0 0) = false /\
  Grid.in_bounds (Grid.init 5) (mkPosition 5 1) = false /\
  Grid.in_bounds (Grid.init 5) (mkPosition 0 5) = false /\
  Grid.in_bounds (Grid.init 5) (mkPosition (-1) 1) = false.
Proof. repeat split. Qed.

Example fire_destroys_in_player_column :
  let game := Game.set_grid (Game.init 5)
                (Grid.add_entity (Grid.init 5) (mkPosition 2 1) Destroyable) in
  let game' := Game.fire a3_support game (DESTROY a3_support) in
  Game.get_num_destroyed game' = 1 /\
  Game.get_total_shots game' = 1 /\
  Grid.get_entity (Game.get_grid game') (mkPosition 2 1) = None.
Proof. repeat split. Qed.

Example fire_stops_at_blocker :
  let game := Game.set_grid (Game.init 5)
                (Grid.add_entity
                   (Grid.add_entity (Grid.init 5) (mkPosition 2 1) Blocker)
                   (mkPosition 2 2) Destroyable) in
  Game.fire a3_support game (DESTROY a3_support) =
  Game.set_total_shots game 1.
Proof. reflexivity. Qed.

Example step_loses_at_row_1 :
  let game := Game.set_grid (Game.init 5)
                (Grid.add_entity (Grid.init 5) (mkPosition 2 1) Destroyable) in
  Game.has_lost (Game.state_of (Game.step game no_draws)) = true.
Proof. reflexivity. Qed.

Example step_drops_what_follows_the_loss :
  Game.step losing_game no_draws =
  Game.Returned
    (Game.set_grid (Game.set_game_over losing_game true) (Grid.init 5)).
Proof. reflexivity. Qed.

Example spawn_plans :
  Game.spawn_plan 7 (mkDraws 2 (fun i => i) 4 (fun i => (3 * i + 1)%nat)) =
    Ok [(1, COLLECTABLE); (5, DESTROYABLE)] /\
  Game.spawn_plan 7 (mkDraws 5 (fun i => i) 3 (fun i => (3 * i + 1)%nat)) =
    Ok [(1, BLOCKER)] /\
  Game.spawn_plan 2 no_draws = Raise ValueError.
Proof. repeat split. Qed.

(** ** Positions and dictionaries *)

Lemma Position_eqb_eq (p q : Position) : Position_eqb p q = true <-> p = q.
Proof.
  destruct p as [px py], q as [qx qy]; unfold Position_eqb; simpl.
  rewrite andb_true_iff, !Z.eqb_eq. split.
  - intros [-> ->]; reflexivity.
  - intros H; inversion H; auto.
Qed.

Lemma Position_eqb_refl (p : Position) : Position_eqb p p = true.
Proof. apply Position_eqb_eq; reflexivity. Qed.

Lemma Position_eqb_neq (p q : Position) : Position_eqb p q = false <-> p <> q.
Proof.
  rewrite <- Position_eqb_eq. destruct (Position_eqb p q); split; congruence.
Qed.

Lemma get_None_iff (d : Dict.t) (k : Position) :
  Dict.get d k = None <-> ~ In k (Dict.keys d).
Proof.
  induction d as [|[k' v] d IH]; simpl.
  - tauto.
  - destruct (Position_eqb k' k) eqn:E.
    + apply Position_eqb_eq in E. split; [discriminate | tauto].
    + apply Position_eqb_neq in E. rewrite IH. tauto.
Qed.

Lemma get_set_same (d : Dict.t) (k : Position) (v : Entity) :
  Dict.get (Dict.set d k v) k = Some v.
Proof.
  induction d as [|[k' v'] d IH]; simpl.
  - now rewrite Position_eqb_refl.
  - destruct (Position_eqb k' k) eqn:E; simpl; rewrite E; auto.
Qed.

Lemma get_set_other (d : Dict.t) (k k' : Position) (v : Entity) :
  k <> k' -> Dict.get (Dict.set d k v) k' = Dict.get d k'.
Proof.
  intros Hne. induction d as [|[k0 v0] d IH]; simpl.
  - apply Position_eqb_neq in Hne. now rewrite Hne.
  - destruct (Position_eqb k0 k) eqn:E; simpl.
    + apply Position_eqb_eq in E; subst k0.
      apply Position_eqb_neq in Hne. now rewrite Hne.
    + now rewrite IH.
Qed.

Lemma set_fresh (d : Dict.t) (k : Position) (v : Entity) :
  ~ In k (Dict.keys d) -> Dict.set d k v = d ++ [(k, v)].
Proof.
  induction d as [|[k' v'] d IH]; simpl; intros Hn.
  - reflexivity.
  - destruct (Position_eqb k' k) eqn:E.
    + apply Position_eqb_eq in E. tauto.
    + rewrite IH by tauto. reflexivity.
Qed.

Lemma keys_set (d : Dict.t) (k : Position) (v : Entity) :
  Dict.keys (Dict.set d k v) =
  if Dict.mem d k then Dict.keys d else Dict.keys d ++ [k].
Proof.
  unfold Dict.mem. induction d as [|[k' v'] d IH]; simpl.
  - reflexivity.
  - destruct (Position_eqb k' k) eqn:E; simpl.
    + reflexivity.
    + rewrite IH. destruct (Dict.get d k); reflexivity.
Qed.

Lemma NoDup_snoc {A : Type} (l : list A) (a : A) :
  NoDup l -> ~ In a l -> NoDup (l ++ [a]).
Proof.
  intros Hl Ha. induction Hl as [|b l Hb Hl IH]; simpl.
  - constructor; [tauto | constructor].
  - constructor.
    + rewrite in_app_iff; simpl. intros [H | [H | []]]; [tauto | subst; simpl in Ha; tauto].
    + apply IH. simpl in Ha; tauto.
Qed.

Lemma NoDup_keys_set (d : Dict.t) (k : Position) (v : Entity) :
  NoDup (Dict.keys d) -> NoDup (Dict.keys (Dict.set d k v)).
Proof.
  intros Hd. rewrite keys_set. unfold Dict.mem.
  destruct (Dict.get d k) eqn:E; auto.
  apply NoDup_snoc; auto. now apply get_None_iff.
Qed.

Lemma In_keys_set (d : Dict.t) (k k' : Position) (v : Entity) :
  In k' (Dict.keys (Dict.set d k v)) -> k' = k \/ In k' (Dict.keys d).
Proof.
  rewrite keys_set. destruct (Dict.mem d k); auto.
  rewrite in_app_iff; simpl. intuition.
Qed.

Lemma In_keys_pop (d : Dict.t) (k k' : Position) :
  In k' (Dict.keys (Dict.pop d k)) -> In k' (Dict.keys d).
Proof.
  induction d as [|[k0 v0] d IH]; simpl; auto.
  destruct (Position_eqb k0 k); simpl; intuition.
Qed.

Lemma NoDup_keys_pop (d : Dict.t) (k : Position) :
  NoDup (Dict.keys d) -> NoDup (Dict.keys (Dict.pop d k)).
Proof.
  induction d as [|[k0 v0] d IH]; simpl; intros Hd; auto.
  inversion Hd; subst.
  destruct (Position_eqb k0 k); simpl; auto.
  constructor; auto. intros Hin. apply In_keys_pop in Hin. tauto.
Qed.

(** ** Construction of an entity from its display character *)

(** C2. [_create_entity] returns a Destroyable for 'D', a Collectable for
    'C' and a Blocker for 'B', and raises for every other string. The
    character 'P' is among the others: the first test compares the string
    with the class [Player], not with the constant [PLAYER], so it never
    succeeds and [_create_entity('P')] raises [NotImplementedError] where
    a Player is expected. *)
Theorem create_entity_player_raises :
  Game._create_entity PLAYER = Raise NotImplementedError /\
  Game._create_entity DESTROYABLE = Ok Destroyable /\
  Game._create_entity COLLECTABLE = Ok Collectable /\
  Game._create_entity BLOCKER = Ok Blocker /\
  forall display : string,
    Game._create_entity display =
    if String.eqb display DESTROYABLE then Ok Destroyable
    else if String.eqb display COLLECTABLE then Ok Collectable
    else if String.eqb display BLOCKER then Ok Blocker
    else Raise NotImplementedError.
Proof.
  repeat split.
Qed.

(** ** Shots *)

Lemma fire_loop_total_shots (sup : Support) (shot_type : string) (x : Z)
  (ys : list Z) (self : Game.t) :
  Game._total_shots (Game.fire_loop sup self shot_type x ys) =
  Game._total_shots self.
Proof.
  induction ys as [|y ys IH]; simpl; auto.
  destruct (Grid.get_entity _ _) as [entity|]; auto.
  destruct (isinstance entity Blocker); auto.
  destruct (isinstance entity Destroyable).
  { destruct (String.eqb shot_type (DESTROY sup)); reflexivity. }
  destruct (isinstance entity Collectable); auto.
  destruct (String.eqb shot_type (COLLECT sup)); reflexivity.
Qed.

(** C7. Every call of [fire], whatever the shot type and whatever the
    player's column holds, leaves [total_shots] exactly one higher. *)
Theorem fire_increments_total_shots (sup : Support) (self : Game.t)
  (shot_type : string) :
  Game.get_total_shots (Game.fire sup self shot_type) =
  Game.get_total_shots self + 1.
Proof.
  unfold Game.fire, Game.get_total_shots.
  rewrite fire_loop_total_shots. reflexivity.
Qed.

(** ** Rotation by an unknown direction *)

Lemma index_not_in (l : list string) (v : string) :
  ~ In v l -> index l v = Raise ValueError.
Proof.
  induction l as [|s l IH]; simpl; intros Hn; auto.
  destruct (String.eqb s v) eqn:E.
  - apply String.eqb_eq in E. tauto.
  - rewrite IH by tauto. reflexivity.
Qed.

(** C9. For a direction that is not one of [DIRECTIONS], [rotate_grid]
    raises (the [ValueError] of [DIRECTIONS.index]) and the game is left
    exactly as it was: the same grid, the same counters. *)
Theorem rotate_grid_unknown_direction (sup : Support) (self : Game.t)
  (direction : string) :
  ~ In direction (DIRECTIONS sup) ->
  Game.rotate_grid sup self direction = Game.Raised ValueError self.
Proof.
  intros Hn. unfold Game.rotate_grid, Game.next_pos.
  rewrite index_not_in by assumption. reflexivity.
Qed.

Lemma rotate_grid_unknown_direction_witness :
  Game.rotate_grid a3_support (Game.init 5) "X" =
  Game.Raised ValueError (Game.init 5).
Proof.
  apply (rotate_grid_unknown_direction a3_support (Game.init 5) "X").
  simpl. intros [H | [H | []]]; discriminate H.
Defined.

(** ** Spawning on a grid smaller than 3 *)

(** C3, as stated, fails: on a fresh game of size 2 the spawn phase of
    [step] does not complete, [random.randint(0, -1)] raises. *)
Lemma step_size_2_raises :
  Game.step (Game.init 2) no_draws = Game.Raised ValueError (Game.init 2) /\
  ~ exists self', Game.step (Game.init 2) no_draws = Game.Returned self'.
Proof.
  split.
  - reflexivity.
  - intros [self' H]. discriminate H.
Qed.

(** C3, amended. On a grid of size below 3 the spawn phase raises
    [ValueError] at the draw of the spawn count, before any entity is
    created or added: [generate_entities] leaves the game as it found it,
    and [step] leaves it as the gravity pass made it. *)
Theorem spawn_raises_below_3 (self : Game.t) (rnd : Draws) :
  Grid.get_size (Game.get_grid self) < 3 ->
  Game.generate_entities self rnd = Game.Raised ValueError self /\
  Game.step self rnd = Game.Raised ValueError (Game.gravity self).
Proof.
  intros Hsize.
  assert (Hgen : forall g, Grid.get_size (Game.get_grid g) < 3 ->
            Game.generate_entities g rnd = Game.Raised ValueError g).
  { intros g Hg. unfold Game.generate_entities, Game.spawn_plan, Random.randint.
    destruct (Grid.get_size (Game.get_grid g) - 3 <? 0) eqn:E.
    - reflexivity.
    - apply Z.ltb_ge in E. lia. }
  split.
  - apply Hgen, Hsize.
  - unfold Game.step. apply Hgen.
    unfold Game.gravity.
    destruct (Game.gravity_loop _ _) as [new_entities lost].
    destruct lost; exact Hsize.
Qed.

Lemma spawn_raises_below_3_witness :
  Game.generate_entities (Game.init 2) no_draws =
    Game.Raised ValueError (Game.init 2) /\
  Game.step (Game.init 2) no_draws =
    Game.Raised ValueError (Game.gravity (Game.init 2)).
Proof.
  apply (spawn_raises_below_3 (Game.init 2) no_draws).
  simpl. lia.
Defined.

(** ** Well-formed games *)

Lemma wf_dict_nil (size : Z) : wf_dict size [].
Proof. split; constructor. Qed.

Lemma wf_dict_set (size : Z) (d : Dict.t) (k : Position) (v : Entity) :
  wf_dict size d -> in_grid size k -> wf_dict size (Dict.set d k v).
Proof.
  intros [Hnd Hb] Hk. split.
  - now apply NoDup_keys_set.
  - rewrite Forall_forall in *. intros k' Hin.
    apply In_keys_set in Hin. destruct Hin as [-> | Hin]; auto.
Qed.

Lemma wf_dict_pop (size : Z) (d : Dict.t) (k : Position) :
  wf_dict size d -> wf_dict size (Dict.pop d k).
Proof.
  intros [Hnd Hb]. split.
  - now apply NoDup_keys_pop.
  - rewrite Forall_forall in *. intros k' Hin.
    apply In_keys_pop in Hin. auto.
Qed.

Lemma in_bounds_iff (grid : Grid.t) (position : Position) :
  Grid.in_bounds grid position = true <-> in_grid (Grid._size grid) position.
Proof.
  unfold Grid.in_bounds, in_grid.
  rewrite !andb_true_iff, !Z.leb_le, !Z.ltb_lt. tauto.
Qed.

Lemma wf_intro (self : Game.t) :
  Grid._size (Game._grid self) = Game._size self ->
  wf_dict (Game._size self) (Grid._entities (Game._grid self)) ->
  wf self.
Proof. intros Hs [Hnd Hb]. now constructor. Qed.

Lemma wf_elim (self : Game.t) :
  wf self -> wf_dict (Game._size self) (Grid._entities (Game._grid self)).
Proof. intros [Hs Hnd Hb]. now split. Qed.

Lemma wf_init (size : Z) : wf (Game.init size).
Proof. apply wf_intro; [reflexivity | apply wf_dict_nil]. Qed.

Lemma py_mod_Ok (a b r : Z) :
  py_mod a b = Ok r -> b <> 0 /\ r = a mod b.
Proof.
  unfold py_mod. destruct (b =? 0) eqn:E; intros H; [discriminate|].
  apply Z.eqb_neq in E. inversion H; auto.
Qed.

Lemma rotate_loop_wf (size dx : Z) (items acc new_entities : Dict.t) :
  Game.rotate_loop size dx items acc = Ok new_entities ->
  Forall (in_grid size) (Dict.keys items) ->
  wf_dict size acc -> wf_dict size new_entities.
Proof.
  revert acc. induction items as [|[p e] items IH]; simpl; intros acc Hr Hb Hacc.
  - inversion Hr; subst; auto.
  - inversion Hb as [|? ? [Hx Hy] Hb']; subst.
    destruct (py_mod (get_x p + dx) size) as [x|] eqn:Ex; simpl in Hr;
      [|discriminate].
    apply py_mod_Ok in Ex. destruct Ex as [Hs ->].
    apply (IH _ Hr Hb'). apply wf_dict_set; auto.
    split; simpl; auto. apply Z.mod_pos_bound. lia.
Qed.

Lemma rotate_grid_wf (sup : Support) (self : Game.t) (direction : string) :
  wf self -> wf (Game.state_of (Game.rotate_grid sup self direction)).
Proof.
  intros Hwf. unfold Game.rotate_grid.
  destruct (Game.next_pos sup direction) as [np|]; simpl; auto.
  destruct (Game.rotate_loop _ _ _ _) as [new_entities|] eqn:E; simpl; auto.
  apply wf_intro; simpl.
  - apply Hwf.
  - apply (rotate_loop_wf _ _ _ _ _ E); [apply Hwf | apply wf_dict_nil].
Qed.

Lemma gravity_loop_wf (size : Z) (items acc : Dict.t) :
  Forall (in_grid size) (Dict.keys items) ->
  wf_dict size acc -> wf_dict size (fst (Game.gravity_loop items acc)).
Proof.
  revert acc. induction items as [|[p e] items IH]; simpl; intros acc Hb Hacc; auto.
  inversion Hb as [|? ? [Hx Hy] Hb']; subst.
  destruct (1 <=? get_y p + -1) eqn:E.
  - apply IH; auto. apply wf_dict_set; auto.
    apply Z.leb_le in E. split; simpl; lia.
  - destruct (isinstance e Destroyable); simpl; auto.
Qed.

Lemma gravity_wf (self : Game.t) : wf self -> wf (Game.gravity self).
Proof.
  intros Hwf. unfold Game.gravity.
  pose proof (gravity_loop_wf (Game._size self)
                (Grid.get_entities (Game._grid self)) []
                (wf_bounds _ Hwf) (wf_dict_nil _)) as H.
  destruct (Game.gravity_loop _ _) as [new_entities lost]. simpl in H.
  apply wf_intro; destruct lost; simpl; auto; apply Hwf.
Qed.

Lemma add_entity_wf (self : Game.t) (position : Position) (entity : Entity) :
  wf self ->
  wf (Game.set_grid self (Grid.add_entity (Game.get_grid self) position entity)).
Proof.
  intros Hwf. unfold Grid.add_entity, Game.get_grid.
  destruct (Grid.in_bounds _ _) eqn:E.
  - apply in_bounds_iff in E. rewrite (wf_size _ Hwf) in E.
    apply wf_intro; simpl; [apply Hwf|].
    apply wf_dict_set; auto. now apply wf_elim.
  - apply wf_intro; simpl; [apply Hwf | now apply wf_elim].
Qed.

Lemma spawn_loop_wf (plan : list (Z * string)) (self : Game.t) :
  wf self -> wf (Game.state_of (Game.spawn_loop self plan)).
Proof.
  revert self. induction plan as [|[pos kind] plan IH]; simpl; intros self Hwf; auto.
  destruct (Game._create_entity kind) as [new_entity|]; simpl; auto.
  apply IH. now apply add_entity_wf.
Qed.

Lemma step_wf (self : Game.t) (rnd : Draws) :
  wf self -> wf (Game.state_of (Game.step self rnd)).
Proof.
  intros Hwf. unfold Game.step, Game.generate_entities.
  apply gravity_wf in Hwf.
  destruct (Game.spawn_plan _ _) as [plan|]; simpl; auto.
  now apply spawn_loop_wf.
Qed.

Lemma remove_entity_wf_dict (size : Z) (grid : Grid.t) (position : Position) :
  wf_dict size (Grid._entities grid) ->
  wf_dict size (Grid._entities (Grid.remove_entity grid position)).
Proof.
  intros H. unfold Grid.remove_entity.
  destruct (Dict.mem _ _); simpl; auto. now apply wf_dict_pop.
Qed.

Lemma remove_entity_size (grid : Grid.t) (position : Position) :
  Grid._size (Grid.remove_entity grid position) = Grid._size grid.
Proof. unfold Grid.remove_entity. destruct (Dict.mem _ _); reflexivity. Qed.

Lemma fire_loop_wf (sup : Support) (shot_type : string) (x : Z) (ys : list Z)
  (self : Game.t) :
  wf self -> wf (Game.fire_loop sup self shot_type x ys).
Proof.
  intros Hwf. induction ys as [|y ys IH]; simpl; auto.
  destruct (Grid.get_entity _ _) as [entity|]; auto.
  destruct (isinstance entity Blocker); auto.
  assert (Hrm : forall g, Game._size g = Game._size self ->
                          Game._grid g = Game._grid self ->
            wf (Game.set_grid g
                  (Grid.remove_entity (Game._grid g) (mkPosition x y)))).
  { intros g Hs Hg. apply wf_intro; simpl.
    - rewrite remove_entity_size, Hg, Hs. apply Hwf.
    - apply remove_entity_wf_dict. rewrite Hg, Hs. now apply wf_elim. }
  destruct (isinstance entity Destroyable).
  { destruct (String.eqb shot_type (DESTROY sup)); auto.
    now apply (Hrm (Game.set_num_destroyed self _)). }
  destruct (isinstance entity Collectable); auto.
  destruct (String.eqb shot_type (COLLECT sup)); auto.
  now apply (Hrm (Game.set_num_collected self _)).
Qed.

Lemma fire_wf (sup : Support) (self : Game.t) (shot_type : string) :
  wf self -> wf (Game.fire sup self shot_type).
Proof.
  intros Hwf. unfold Game.fire. apply fire_loop_wf.
  apply wf_intro; simpl; [apply Hwf | now apply wf_elim].
Qed.

Lemma exec_wf (sup : Support) (self : Game.t) (c : call) :
  wf self -> wf (Game.state_of (exec sup self c)).
Proof.
  destruct c; simpl.
  - apply rotate_grid_wf.
  - apply step_wf.
  - apply fire_wf.
Qed.

(** Every game reached from a fresh one is well-formed. *)
Lemma run_wf (sup : Support) (calls : list call) (self : Game.t) :
  wf self -> wf (run sup self calls).
Proof.
  revert self. induction calls as [|c calls IH]; simpl; intros self Hwf; auto.
  apply IH. now apply exec_wf.
Qed.

(** ** The counters *)

Lemma counters_step_same (self self' : Game.t) :
  Game._num_collected self' = Game._num_collected self ->
  Game._num_destroyed self' = Game._num_destroyed self ->
  Game._total_shots self' = Game._total_shots self ->
  counters_step self self'.
Proof. intros H1 H2 H3. left. rewrite H1, H2, H3. lia. Qed.

Lemma rotate_grid_counters (sup : Support) (self : Game.t) (direction : string) :
  counters_step self (Game.state_of (Game.rotate_grid sup self direction)).
Proof.
  unfold Game.rotate_grid.
  destruct (_ <- Game.next_pos sup direction ;; _); simpl;
    now apply counters_step_same.
Qed.

Lemma spawn_loop_counters (plan : list (Z * string)) (self : Game.t) :
  let self' := Game.state_of (Game.spawn_loop self plan) in
  Game._num_collected self' = Game._num_collected self /\
  Game._num_destroyed self' = Game._num_destroyed self /\
  Game._total_shots self' = Game._total_shots self /\
  Game._game_over self' = Game._game_over self.
Proof.
  revert self. induction plan as [|[pos kind] plan IH]; simpl; intros self; auto.
  destruct (Game._create_entity kind) as [new_entity|]; simpl; auto.
  apply (IH (Game.set_grid self _)).
Qed.

Lemma gravity_counters (self : Game.t) :
  Game._num_collected (Game.gravity self) = Game._num_collected self /\
  Game._num_destroyed (Game.gravity self) = Game._num_destroyed self /\
  Game._total_shots (Game.gravity self) = Game._total_shots self.
Proof.
  unfold Game.gravity.
  destruct (Game.gravity_loop _ _) as [new_entities lost].
  destruct lost; simpl; auto.
Qed.

Lemma step_counters_eq (self : Game.t) (rnd : Draws) :
  let self' := Game.state_of (Game.step self rnd) in
  Game._num_collected self' = Game._num_collected self /\
  Game._num_destroyed self' = Game._num_destroyed self /\
  Game._total_shots self' = Game._total_shots self.
Proof.
  unfold Game.step, Game.generate_entities.
  destruct (gravity_counters self) as (H1 & H2 & H3).
  destruct (Game.spawn_plan _ _) as [plan|]; simpl; auto.
  destruct (spawn_loop_counters plan (Game.gravity self)) as (K1 & K2 & K3 & _).
  simpl in *. rewrite K1, K2, K3. auto.
Qed.

Lemma fire_loop_counters (sup : Support) (shot_type : string) (x : Z)
  (ys : list Z) (self : Game.t) :
  let self' := Game.fire_loop sup self shot_type x ys in
  Game._total_shots self' = Game._total_shots self /\
  ((Game._num_collected self' = Game._num_collected self /\
    Game._num_destroyed self' = Game._num_destroyed self) \/
   (Game._num_collected self' = Game._num_collected self + 1 /\
    Game._num_destroyed self' = Game._num_destroyed self) \/
   (Game._num_collected self' = Game._num_collected self /\
    Game._num_destroyed self' = Game._num_destroyed self + 1)).
Proof.
  induction ys as [|y ys IH]; simpl; auto.
  destruct (Grid.get_entity _ _) as [entity|]; auto.
  destruct (isinstance entity Blocker); auto.
  destruct (isinstance entity Destroyable).
  { destruct (String.eqb shot_type (DESTROY sup)); simpl; auto. }
  destruct (isinstance entity Collectable); auto.
  destruct (String.eqb shot_type (COLLECT sup)); simpl; auto.
Qed.

Lemma fire_counters (sup : Support) (self : Game.t) (shot_type : string) :
  counters_step self (Game.fire sup self shot_type).
Proof.
  unfold Game.fire, counters_step.
  destruct (fire_loop_counters sup shot_type
              (get_x (Game._player_position self))
              (range 1 (Game._size self))
              (Game.set_total_shots self (Game._total_shots self + 1)))
    as (Ht & Hc).
  simpl in *. rewrite Ht.
  destruct Hc as [[-> ->] | [[-> ->] | [-> ->]]]; lia.
Qed.

Lemma exec_counters (sup : Support) (self : Game.t) (c : call) :
  counters_step self (Game.state_of (exec sup self c)).
Proof.
  destruct c; simpl.
  - apply rotate_grid_counters.
  - destruct (step_counters_eq self rnd) as (H1 & H2 & H3).
    now apply counters_step_same.
  - apply fire_counters.
Qed.

Lemma counters_step_ok (self self' : Game.t) :
  counters_step self self' -> counters_ok self ->
  counters_ok self' /\ counters_le self self'.
Proof.
  unfold counters_step, counters_ok, counters_le. lia.
Qed.

Lemma run_counters_ok (sup : Support) (calls : list call) (self : Game.t) :
  counters_ok self -> counters_ok (run sup self calls).
Proof.
  revert self. induction calls as [|c calls IH]; simpl; intros self Hok; auto.
  apply IH.
  apply (counters_step_ok self _ (exec_counters sup self c) Hok).
Qed.

(** C5. In every game reached from a fresh one by calls of [rotate_grid],
    [step] and [fire] (calls that raise included), the three counters are
    non-negative and [total_shots >= num_collected + num_destroyed], and
    no further call makes any of the three smaller. *)
Theorem counters_invariant (sup : Support) (size : Z) (calls : list call) :
  let self := run sup (Game.init size) calls in
  counters_ok self /\
  forall c : call, counters_le self (Game.state_of (exec sup self c)).
Proof.
  intros self.
  assert (Hok : counters_ok self).
  { apply run_counters_ok. unfold counters_ok; simpl; lia. }
  split; auto.
  intros c.
  apply (counters_step_ok self _ (exec_counters sup self c) Hok).
Qed.

(** ** Ranges *)

Lemma range_nil (a b : Z) : b <= a -> range a b = [].
Proof.
  intros H. unfold range. replace (Z.to_nat (b - a)) with O by lia. reflexivity.
Qed.

Lemma range_cons (a b : Z) : a < b -> range a b = a :: range (a + 1) b.
Proof.
  intros H. unfold range.
  replace (Z.to_nat (b - a)) with (S (Z.to_nat (b - (a + 1)))) by lia.
  simpl. f_equal; [lia|].
  rewrite <- seq_shift, map_map.
  apply map_ext. intros i. lia.
Qed.

Lemma In_range (a b y : Z) : In y (range a b) <-> a <= y < b.
Proof.
  unfold range. rewrite in_map_iff. split.
  - intros (i & <- & Hi). apply in_seq in Hi. lia.
  - intros Hy. exists (Z.to_nat (y - a)). split; [lia|].
    apply in_seq. lia.
Qed.

Lemma length_range (a b : Z) : List.length (range a b) = Z.to_nat (b - a).
Proof. unfold range. now rewrite length_map, length_seq. Qed.

Lemma NoDup_map_on {A B : Type} (f : A -> B) (l : list A) :
  (forall a a', In a l -> In a' l -> f a = f a' -> a = a') ->
  NoDup l -> NoDup (map f l).
Proof.
  intros Hinj Hl. induction Hl as [|a l Ha Hl IH]; simpl.
  - constructor.
  - constructor.
    + rewrite in_map_iff. intros (a' & Heq & Hin).
      assert (a' = a) by (apply Hinj; simpl; auto). subst. contradiction.
    + apply IH. intros; apply Hinj; simpl; auto.
Qed.

Lemma NoDup_range (a b : Z) : NoDup (range a b).
Proof.
  unfold range. apply NoDup_map_on.
  - intros i j _ _ Hij. lia.
  - apply seq_NoDup.
Qed.

(** ** A shot of the wrong type *)

Lemma fire_loop_lowest (sup : Support) (self : Game.t) (shot_type : string)
  (x y0 b : Z) (entity : Entity) (n : nat) :
  forall a : Z,
    Z.to_nat (y0 - a) = n -> a <= y0 < b ->
    (forall y, a <= y < y0 ->
               Grid.get_entity (Game._grid self) (mkPosition x y) = None) ->
    Grid.get_entity (Game._grid self) (mkPosition x y0) = Some entity ->
    entity <> Player ->
    Game.fire_loop sup self shot_type x (range a b) =
    Game.fire_loop sup self shot_type x [y0].
Proof.
  induction n as [|n IH]; intros a Hn Hab Hnone Hsome Hp.
  - assert (a = y0) by lia. subst a.
    rewrite range_cons by lia. simpl. rewrite Hsome.
    destruct entity; [contradiction | reflexivity ..].
  - rewrite range_cons by lia. simpl.
    rewrite Hnone by lia.
    rewrite (IH (a + 1)); auto; try lia.
    intros y Hy. apply Hnone. lia.
Qed.

(** C8. When the lowest occupied cell of the player's column holds a
    Collectable, [fire(DESTROY)] changes nothing but [total_shots]: the
    grid, [num_destroyed] and [num_collected] stay as they are. The same
    holds for a shot of any type other than [DESTROY] when that cell
    holds a Destroyable. (The two shot types are different strings.) *)
Theorem fire_wrong_type_no_effect (sup : Support) (self : Game.t) (y0 : Z)
  (entity : Entity) (shot_type : string) :
  DESTROY sup <> COLLECT sup ->
  lowest_occupied self (get_x (Game.get_player_position self)) y0 entity ->
  (entity = Collectable /\ shot_type = DESTROY sup) \/
  (entity = Destroyable /\ shot_type <> DESTROY sup) ->
  Game.fire sup self shot_type =
  Game.set_total_shots self (Game._total_shots self + 1).
Proof.
  intros Hdc (Hy0 & Hsome & Hnone) Hwrong.
  unfold Game.fire.
  set (self1 := Game.set_total_shots self (Game._total_shots self + 1)).
  change (Game._player_position self1) with (Game.get_player_position self).
  change (Game._size self1) with (Game._size self).
  rewrite (fire_loop_lowest sup self1 shot_type _ y0 _ entity
             (Z.to_nat (y0 - 1)) 1 eq_refl Hy0 Hnone Hsome)
    by (destruct Hwrong as [[-> _] | [-> _]]; discriminate).
  simpl. change (Game._grid self1) with (Game._grid self). rewrite Hsome.
  destruct Hwrong as [[-> ->] | [-> Hne]]; simpl.
  - destruct (String.eqb (DESTROY sup) (COLLECT sup)) eqn:E; auto.
    apply String.eqb_eq in E. contradiction.
  - destruct (String.eqb shot_type (DESTROY sup)) eqn:E; auto.
    apply String.eqb_eq in E. contradiction.
Qed.

Lemma fire_wrong_type_no_effect_witness :
  Game.fire a3_support collectable_ahead (DESTROY a3_support) =
  Game.set_total_shots collectable_ahead 1.
Proof.
  apply (fire_wrong_type_no_effect a3_support collectable_ahead 2
           Collectable (DESTROY a3_support)).
  - simpl. discriminate.
  - unfold lowest_occupied. simpl. split; [lia|]. split; [reflexivity|].
    intros y Hy. assert (y = 1) by lia. subst y. reflexivity.
  - left. split; reflexivity.
Defined.

(** ** Rotation *)

Lemma keys_app (d d' : Dict.t) : Dict.keys (d ++ d') = Dict.keys d ++ Dict.keys d'.
Proof. apply map_app. Qed.

Lemma shift_mod_inj (n d x1 x2 : Z) :
  0 <= x1 < n -> 0 <= x2 < n ->
  (x1 + d) mod n = (x2 + d) mod n -> x1 = x2.
Proof.
  intros H1 H2 H.
  assert (E : (x1 + d - d) mod n = (x2 + d - d) mod n).
  { rewrite <- (Zminus_mod_idemp_l (x1 + d)), H, Zminus_mod_idemp_l.
    reflexivity. }
  replace (x1 + d - d) with x1 in E by lia.
  replace (x2 + d - d) with x2 in E by lia.
  rewrite !Z.mod_small in E by lia. exact E.
Qed.

Lemma rotated_keys_NoDup (size dx : Z) (items : Dict.t) :
  wf_dict size items -> NoDup (Dict.keys (map (rotated size dx) items)).
Proof.
  intros [Hnd Hb]. unfold Dict.keys. rewrite map_map.
  change (map (fun item => fst (rotated size dx item)) items)
    with (map (fun item : Position * Entity =>
                 mkPosition ((get_x (fst item) + dx) mod size)
                            (get_y (fst item))) items).
  rewrite <- (map_map fst (fun p => mkPosition ((get_x p + dx) mod size) (get_y p))).
  apply NoDup_map_on; auto.
  rewrite Forall_forall in Hb.
  intros [x1 y1] [x2 y2] Hp Hq Heq.
  apply Hb in Hp, Hq. destruct Hp as [Hx1 _], Hq as [Hx2 _]. simpl in *.
  inversion Heq as [[Hx Hy]]. f_equal.
  now apply (shift_mod_inj size dx).
Qed.

Lemma rotate_loop_fresh (size dx : Z) (items acc : Dict.t) :
  Forall (in_grid size) (Dict.keys items) ->
  NoDup (Dict.keys (acc ++ map (rotated size dx) items)) ->
  Game.rotate_loop size dx items acc = Ok (acc ++ map (rotated size dx) items).
Proof.
  revert acc. induction items as [|[p e] items IH]; simpl; intros acc Hb Hnd.
  - now rewrite app_nil_r.
  - inversion Hb as [|? ? [Hx Hy] Hb']; subst.
    unfold py_mod. destruct (size =? 0) eqn:E; [apply Z.eqb_eq in E; lia|].
    simpl. rewrite set_fresh.
    + rewrite IH; auto.
      * now rewrite <- app_assoc.
      * now rewrite <- app_assoc.
    + rewrite keys_app in Hnd. simpl in Hnd.
      apply NoDup_remove_2 in Hnd. rewrite in_app_iff in Hnd. tauto.
Qed.

Lemma rotated_rotated (size a b : Z) (item : Position * Entity) :
  rotated size a (rotated size b item) = rotated size (b + a) item.
Proof.
  unfold rotated; simpl. f_equal. f_equal.
  now rewrite Zplus_mod_idemp_l, Z.add_assoc.
Qed.

Lemma rotated_full_turn (size m : Z) (items : Dict.t) :
  Forall (in_grid size) (Dict.keys items) ->
  map (rotated size (Z.of_nat (Z.to_nat size) * m)) items = items.
Proof.
  induction items as [|[[x y] e] items IH]; simpl; intros Hb; auto.
  inversion Hb as [|? ? [Hx Hy] Hb']; subst. simpl in *.
  rewrite IH by assumption. f_equal.
  unfold rotated; simpl. f_equal. f_equal.
  rewrite Z2Nat.id by lia.
  rewrite (Z.mul_comm size m), Z_mod_plus_full.
  apply Z.mod_small; lia.
Qed.

Lemma rotated_none (size : Z) (items : Dict.t) :
  Forall (in_grid size) (Dict.keys items) ->
  map (rotated size 0) items = items.
Proof.
  induction items as [|[[x y] e] items IH]; simpl; intros Hb; auto.
  inversion Hb as [|? ? [Hx Hy] Hb']; subst. simpl in *.
  rewrite IH by assumption. f_equal.
  unfold rotated; simpl. rewrite Z.add_0_r, Z.mod_small by lia. reflexivity.
Qed.

Lemma renew_same (self : Game.t) :
  Game.set_grid self
    (Grid.renew_entities (Game._grid self)
       (Grid.get_entities (Game._grid self))) = self.
Proof. destruct self as [? ? [? ?] ? ? ? ?]; reflexivity. Qed.

Lemma rotate_grid_rotated (sup : Support) (self : Game.t) (direction : string)
  (offset : Z * Z) :
  wf self -> Game.next_pos sup direction = Ok offset ->
  Game.rotate_grid sup self direction =
  Game.Returned
    (Game.set_grid self
       (Grid.renew_entities (Game._grid self)
          (map (rotated (Game._size self) (fst offset))
               (Grid.get_entities (Game._grid self))))).
Proof.
  intros Hwf Hnp. unfold Game.rotate_grid. rewrite Hnp. simpl.
  rewrite rotate_loop_fresh; simpl.
  - reflexivity.
  - apply Hwf.
  - apply rotated_keys_NoDup. now apply wf_elim.
Qed.

Lemma rotate_times_rotated (sup : Support) (direction : string)
  (offset : Z * Z) (n : nat) :
  Game.next_pos sup direction = Ok offset ->
  forall self : Game.t,
    wf self ->
    rotate_times sup direction n self =
    Game.Returned
      (Game.set_grid self
         (Grid.renew_entities (Game._grid self)
            (map (rotated (Game._size self) (Z.of_nat n * fst offset))
                 (Grid.get_entities (Game._grid self))))).
Proof.
  intros Hnp. induction n as [|n IH]; intros self Hwf.
  - simpl. rewrite rotated_none by apply Hwf. now rewrite renew_same.
  - cbn [rotate_times].
    pose proof (rotate_grid_wf sup self direction Hwf) as Hwf1.
    rewrite (rotate_grid_rotated sup self direction offset Hwf Hnp) in *.
    simpl in Hwf1. rewrite (IH _ Hwf1).
    replace (Z.of_nat (S n)) with (Z.of_nat n + 1) by lia.
    unfold Game.set_grid, Grid.renew_entities, Grid.get_entities.
    cbn [Game._grid Game._size Grid._entities Grid._size].
    rewrite map_map. do 3 f_equal.
    apply map_ext. intros item. rewrite rotated_rotated. f_equal. ring.
Qed.

(** C6. In a well-formed game and for a direction of [DIRECTIONS] with
    its offset in [ROTATIONS], one call of [rotate_grid] returns, and the
    grid then holds, for every entry ((x, y), entity) it held and in the
    same order, the entry (((x + dx) mod size, y), entity), where dx is
    the x-offset of the direction; and [size] calls in a row with that
    direction return the game, grid included, to what it was. *)
Theorem rotate_grid_closure (sup : Support) (self : Game.t)
  (direction : string) (offset : Z * Z) :
  wf self ->
  Game.next_pos sup direction = Ok offset ->
  (exists self',
     Game.rotate_grid sup self direction = Game.Returned self' /\
     Grid.get_entities (Game.get_grid self') =
     map (rotated (Game._size self) (fst offset))
         (Grid.get_entities (Game.get_grid self))) /\
  rotate_times sup direction (Z.to_nat (Game._size self)) self =
    Game.Returned self.
Proof.
  intros Hwf Hnp. split.
  - eexists. split.
    + exact (rotate_grid_rotated sup self direction offset Hwf Hnp).
    + reflexivity.
  - rewrite (rotate_times_rotated sup direction offset _ Hnp self Hwf).
    rewrite rotated_full_turn by apply Hwf.
    now rewrite renew_same.
Qed.

Lemma losing_game_wf : wf losing_game.
Proof.
  apply wf_intro; [reflexivity|]. split; simpl.
  - repeat constructor; simpl; intuition discriminate.
  - repeat constructor; simpl; lia.
Qed.

Lemma rotate_grid_closure_witness :
  (exists self',
     Game.rotate_grid a3_support losing_game "A" = Game.Returned self' /\
     Grid.get_entities (Game.get_grid self') =
     [(mkPosition 1 1, Destroyable); (mkPosition 2 4, Collectable)]) /\
  rotate_times a3_support "A" 5 losing_game = Game.Returned losing_game.
Proof.
  apply (rotate_grid_closure a3_support losing_game "A" (-1, 0)).
  - exact losing_game_wf.
  - reflexivity.
Defined.

(** ** The gravity pass *)

Lemma fallen_keys_NoDup (items : Dict.t) :
  NoDup (Dict.keys items) -> NoDup (Dict.keys (map fallen items)).
Proof.
  intros Hnd. unfold Dict.keys. rewrite map_map.
  change (map (fun item => fst (fallen item)) items)
    with (map (fun item : Position * Entity =>
                 mkPosition (get_x (fst item)) (get_y (fst item) + snd MOVE))
              items).
  rewrite <- (map_map fst (fun p => mkPosition (get_x p) (get_y p + snd MOVE))).
  apply NoDup_map_on; auto.
  intros [x1 y1] [x2 y2] _ _ Heq. simpl in Heq.
  inversion Heq. f_equal; lia.
Qed.

Lemma gravity_loop_carry (pre rest acc : Dict.t) :
  Forall (fun item => 1 <= get_y (fst item) + snd MOVE) pre ->
  NoDup (Dict.keys (acc ++ map fallen pre)) ->
  Game.gravity_loop (pre ++ rest) acc =
  Game.gravity_loop rest (acc ++ map fallen pre).
Proof.
  revert acc. induction pre as [|[p e] pre IH]; simpl; intros acc Hc Hnd.
  - now rewrite app_nil_r.
  - inversion Hc as [|? ? Hy Hc']; subst. simpl in Hy.
    destruct (1 <=? get_y p + -1) eqn:E; [|apply Z.leb_gt in E; lia].
    rewrite set_fresh.
    + rewrite IH; auto; now rewrite <- app_assoc.
    + rewrite keys_app in Hnd. simpl in Hnd.
      apply NoDup_remove_2 in Hnd. rewrite in_app_iff in Hnd. tauto.
Qed.

Lemma gravity_loop_discard (items1 items2 acc : Dict.t) (p : Position)
  (entity : Entity) :
  entity <> Destroyable -> get_y p + snd MOVE < 1 ->
  Game.gravity_loop (items1 ++ (p, entity) :: items2) acc =
  Game.gravity_loop (items1 ++ items2) acc.
Proof.
  intros He Hy. revert acc.
  induction items1 as [|[q e] items1 IH]; simpl; intros acc.
  - simpl in Hy. destruct (1 <=? get_y p + -1) eqn:E; [apply Z.leb_le in E; lia|].
    destruct entity; simpl; congruence.
  - destruct (1 <=? get_y q + -1); auto.
    destruct (isinstance e Destroyable); auto.
Qed.

(** What the gravity pass leaves in the grid, and whether the game is
    lost after it, read off the loop. *)
Lemma gravity_entities (self : Game.t) :
  Grid.get_entities (Game.get_grid (Game.gravity self)) =
  fst (Game.gravity_loop (Grid.get_entities (Game.get_grid self)) []).
Proof.
  unfold Game.gravity, Game.get_grid.
  destruct (Game.gravity_loop _ _) as [new_entities lost].
  destruct lost; reflexivity.
Qed.

Lemma gravity_has_lost (self : Game.t) :
  Game.has_lost (Game.gravity self) =
  snd (Game.gravity_loop (Grid.get_entities (Game.get_grid self)) [])
  || Game.has_lost self.
Proof.
  unfold Game.gravity, Game.get_grid, Game.has_lost.
  destruct (Game.gravity_loop _ _) as [new_entities lost].
  destruct lost; reflexivity.
Qed.

(** C4. Let an entity of the grid fall off in the gravity pass (its new y
    is below 1). If it is a Destroyable and every entity before it in the
    iteration order is carried forward, the game is lost after the pass
    and the pass stopped there: the grid holds the entities before it,
    one row lower, and nothing else, so the entities after it are
    dropped. If it is not a Destroyable it is discarded: the pass ends,
    in the grid and in [has_lost], as it does on a game [other] that
    holds the same entities without that one. In both cases the gravity
    pass leaves the three counters as they were. *)
Theorem gravity_break_on_first_loss (self other : Game.t) (pre post : Dict.t)
  (p : Position) (entity : Entity) :
  NoDup (Dict.keys (Grid.get_entities (Game.get_grid self))) ->
  Grid.get_entities (Game.get_grid self) = pre ++ (p, entity) :: post ->
  get_y p + snd MOVE < 1 ->
  (entity = Destroyable ->
   Forall (fun item => 1 <= get_y (fst item) + snd MOVE) pre) ->
  Grid.get_entities (Game.get_grid other) = pre ++ post ->
  Game.has_lost other = Game.has_lost self ->
  (if isinstance entity Destroyable
   then Game.has_lost (Game.gravity self) = true /\
        Grid.get_entities (Game.get_grid (Game.gravity self)) =
        map fallen pre
   else Game.has_lost (Game.gravity self) =
        Game.has_lost (Game.gravity other) /\
        Grid.get_entities (Game.get_grid (Game.gravity self)) =
        Grid.get_entities (Game.get_grid (Game.gravity other))) /\
  Game.get_num_collected (Game.gravity self) = Game.get_num_collected self /\
  Game.get_num_destroyed (Game.gravity self) = Game.get_num_destroyed self /\
  Game.get_total_shots (Game.gravity self) = Game.get_total_shots self.
Proof.
  intros Hnd Hitems Hy Hpre Hother Hlost. split; [|apply gravity_counters].
  rewrite !gravity_has_lost, !gravity_entities, Hitems, Hother, Hlost.
  destruct (isinstance entity Destroyable) eqn:Hd.
  - assert (entity = Destroyable) by (destruct entity; simpl in Hd; congruence).
    subst entity. specialize (Hpre eq_refl).
    rewrite gravity_loop_carry; auto.
    + simpl in *.
      destruct (1 <=? get_y p + -1) eqn:E; [apply Z.leb_le in E; lia|].
      simpl. auto.
    + simpl. apply fallen_keys_NoDup.
      rewrite Hitems, keys_app in Hnd. now apply NoDup_app_remove_r in Hnd.
  - assert (He : entity <> Destroyable) by (intros ->; discriminate Hd).
    rewrite gravity_loop_discard by assumption. auto.
Qed.

Lemma gravity_break_on_first_loss_witness :
  (Game.has_lost (Game.gravity losing_game) = true /\
   Grid.get_entities (Game.get_grid (Game.gravity losing_game)) = []) /\
  Game.get_num_collected (Game.gravity losing_game) = 0 /\
  Game.get_num_destroyed (Game.gravity losing_game) = 0 /\
  Game.get_total_shots (Game.gravity losing_game) = 0.
Proof.
  apply (gravity_break_on_first_loss losing_game collectable_on_top []
           [(mkPosition 3 4, Collectable)] (mkPosition 2 1) Destroyable).
  - apply losing_game_wf.
  - reflexivity.
  - simpl. lia.
  - intros _. constructor.
  - reflexivity.
  - reflexivity.
Defined.

(** ** The draws *)

Lemma remove_nth_incl (j : nat) (pool : list Z) (a : Z) :
  In a (Random.remove_nth j pool) -> In a pool.
Proof.
  revert j. induction pool as [|b pool IH]; intros j; simpl; auto.
  destruct j as [|j]; simpl; auto.
  intros [H | H]; eauto.
Qed.

Lemma remove_nth_NoDup (j : nat) (pool : list Z) (a : Z) :
  NoDup pool -> nth_error pool j = Some a ->
  NoDup (Random.remove_nth j pool) /\ ~ In a (Random.remove_nth j pool).
Proof.
  revert j. induction pool as [|b pool IH]; intros j Hnd Hj.
  - destruct j; discriminate Hj.
  - inversion Hnd as [|? ? Hb Hnd']; subst.
    destruct j as [|j]; simpl in *.
    + inversion Hj; subst. auto.
    + destruct (IH j Hnd' Hj) as [H1 H2]. split.
      * constructor; auto. intros Hin. apply remove_nth_incl in Hin. tauto.
      * intros [-> | Hin]; [|tauto].
        apply nth_error_In in Hj. tauto.
Qed.

Lemma remove_nth_length (j : nat) (pool : list Z) :
  (j < List.length pool)%nat ->
  List.length (Random.remove_nth j pool) = pred (List.length pool).
Proof.
  revert j. induction pool as [|b pool IH]; simpl; intros j Hj; [lia|].
  destruct j as [|j]; simpl; auto.
  rewrite IH by lia. lia.
Qed.

Lemma draw_distinct_incl (k : nat) (raw : nat -> nat) (pool : list Z)
  (i : nat) (a : Z) :
  In a (Random.draw_distinct pool k raw i) -> In a pool.
Proof.
  revert pool i. induction k as [|k IH]; simpl; intros pool i; [tauto|].
  destruct (nth_error pool _) as [b|] eqn:E; simpl; [|tauto].
  intros [<- | Hin].
  - eapply nth_error_In; eauto.
  - apply IH in Hin. eapply remove_nth_incl; eauto.
Qed.

Lemma draw_distinct_NoDup (k : nat) (raw : nat -> nat) (pool : list Z) (i : nat) :
  NoDup pool -> NoDup (Random.draw_distinct pool k raw i).
Proof.
  revert pool i. induction k as [|k IH]; simpl; intros pool i Hnd.
  - constructor.
  - destruct (nth_error pool _) as [b|] eqn:E; [|constructor].
    destruct (remove_nth_NoDup _ _ _ Hnd E) as [H1 H2].
    constructor; auto.
    intros Hin. apply draw_distinct_incl in Hin. contradiction.
Qed.

Lemma draw_distinct_length (k : nat) (raw : nat -> nat) (pool : list Z) (i : nat) :
  (k <= List.length pool)%nat ->
  List.length (Random.draw_distinct pool k raw i) = k.
Proof.
  revert pool i. induction k as [|k IH]; simpl; intros pool i Hk; auto.
  assert (Hj : (raw i mod List.length pool < List.length pool)%nat)
    by (apply Nat.mod_upper_bound; lia).
  destruct (nth_error pool _) as [b|] eqn:E.
  - simpl. rewrite IH; auto. rewrite remove_nth_length by assumption. lia.
  - apply nth_error_None in E. lia.
Qed.

Lemma NoDup_fst_combine {A B : Type} (l : list A) (l' : list B) :
  NoDup l -> NoDup (map fst (combine l l')).
Proof.
  intros Hnd. revert l'. induction Hnd as [|a l Ha Hnd IH]; intros l'; simpl.
  - constructor.
  - destruct l' as [|b l']; simpl; constructor; auto.
    rewrite in_map_iff. intros ([a' b'] & Heq & Hin). simpl in Heq. subst a'.
    apply in_combine_l in Hin. contradiction.
Qed.

Lemma choices_incl (population : list string) (k : Z) (raw : nat -> nat)
  (entities : list string) :
  Random.choices population k raw = Ok entities ->
  Forall (fun kind => In kind population) entities /\
  List.length entities = Z.to_nat k.
Proof.
  unfold Random.choices. destruct population as [|s population].
  - destruct (k <=? 0) eqn:E; intros H; inversion H; subst.
    apply Z.leb_le in E. split; [constructor | simpl; lia].
  - intros H.
    assert (Hmap : entities =
              map (fun i => nth (raw i mod List.length (s :: population))%nat
                                (s :: population) s)
                  (seq 0 (Z.to_nat k))) by congruence.
    clear H. subst entities. split.
    + apply Forall_forall. intros kind Hin. apply in_map_iff in Hin.
      destruct Hin as (i & <- & _).
      apply nth_In, Nat.mod_upper_bound. discriminate.
    + now rewrite length_map, length_seq.
Qed.

Lemma choices_spawnable (k : Z) (raw : nat -> nat) (entities : list string) :
  Random.choices ENTITY_TYPES k raw = Ok entities ->
  Forall spawnable entities /\ List.length entities = Z.to_nat k.
Proof.
  intros H. apply choices_incl in H. destruct H as [Hin Hlen].
  split; auto.
  apply (Forall_impl _ (P := fun kind => In kind ENTITY_TYPES)); auto.
  unfold spawnable. simpl. intros kind [<- | [<- | []]]; auto.
Qed.

Lemma bind_Ok {A B : Type} (r : result A) (k : A -> result B) (b : B) :
  bind r k = Ok b -> exists a, r = Ok a /\ k a = Ok b.
Proof. destruct r as [a|e]; simpl; intros H; [eauto | discriminate H]. Qed.

Lemma randint_Ok (a b r : Z) (raw : nat) :
  Random.randint a b raw = Ok r -> a <= r <= b.
Proof.
  unfold Random.randint. destruct (b <? a) eqn:E; intros H; [discriminate H|].
  apply Z.ltb_ge in E. injection H as <-.
  pose proof (Z.mod_pos_bound (Z.of_nat raw) (b - a + 1)). lia.
Qed.

Lemma randint_total (a b : Z) (raw : nat) :
  a <= b -> exists r, Random.randint a b raw = Ok r.
Proof.
  intros H. unfold Random.randint.
  destruct (b <? a) eqn:E; [apply Z.ltb_lt in E; lia | eauto].
Qed.

Lemma sample_Ok (population l : list Z) (k : Z) (raw : nat -> nat) :
  Random.sample population k raw = Ok l ->
  NoDup population ->
  NoDup l /\ (forall a, In a l -> In a population) /\
  Z.of_nat (List.length l) = k.
Proof.
  unfold Random.sample.
  destruct (_ || _) eqn:E; intros H Hnd; [discriminate H|].
  injection H as <-. apply orb_false_iff in E. rewrite !Z.ltb_ge in E.
  split; [now apply draw_distinct_NoDup|]. split.
  - intros a. apply draw_distinct_incl.
  - rewrite draw_distinct_length; lia.
Qed.

Lemma sample_total (population : list Z) (k : Z) (raw : nat -> nat) :
  0 <= k <= Z.of_nat (List.length population) ->
  exists l, Random.sample population k raw = Ok l.
Proof.
  intros H. unfold Random.sample.
  destruct (_ || _) eqn:E; eauto.
  apply orb_true_iff in E. rewrite !Z.ltb_lt in E. lia.
Qed.

(** What a plan of spawns that was drawn without an exception looks
    like: the grid has at least 3 columns, the columns are pairwise
    distinct and on the grid, and the kinds are Collectable, Destroyable
    or Blocker. *)
Lemma spawn_plan_Ok (size : Z) (rnd : Draws) (plan : list (Z * string)) :
  Game.spawn_plan size rnd = Ok plan ->
  3 <= size /\
  NoDup (map fst plan) /\
  (forall pos kind, In (pos, kind) plan -> 0 <= pos < size /\ spawnable kind).
Proof.
  unfold Game.spawn_plan. intros H.
  apply bind_Ok in H. destruct H as (entity_count & Hc & H).
  apply bind_Ok in H. destruct H as (entities & He & H).
  apply bind_Ok in H. destruct H as (r & _ & H).
  apply bind_Ok in H. destruct H as (entity_index & Hs & H).
  injection H as <-.
  apply randint_Ok in Hc.
  apply choices_spawnable in He. destruct He as [Hkinds _].
  apply sample_Ok in Hs; [|apply NoDup_range].
  destruct Hs as (Hnd & Hincl & _).
  split; [lia|]. split.
  - now apply NoDup_fst_combine.
  - intros pos kind Hin. split.
    + apply in_combine_l, Hincl, In_range in Hin. lia.
    + apply in_combine_r in Hin.
      assert (Hb : spawnable BLOCKER) by (unfold spawnable; auto).
      rewrite Forall_forall in Hkinds.
      destruct (r mod 4 =? 0); auto.
      apply in_app_iff in Hin. destruct Hin as [Hin | [<- | []]]; auto.
Qed.

(** On a grid of at least 3 columns the draws raise no exception. *)
Lemma spawn_plan_total (size : Z) (rnd : Draws) :
  3 <= size -> exists plan, Game.spawn_plan size rnd = Ok plan.
Proof.
  intros Hsize. unfold Game.spawn_plan.
  destruct (randint_total 0 (size - 3) (raw_count rnd)) as [entity_count Hc];
    [lia|].
  rewrite Hc. cbn [bind]. apply randint_Ok in Hc.
  unfold ENTITY_TYPES, Random.choices at 1. cbn [bind].
  destruct (randint_total 1 4 (raw_blocker rnd)) as [r Hr]; [lia|].
  rewrite Hr. cbn [bind].
  match goal with
  | |- context [Random.sample ?pop ?k ?raw] =>
      destruct (sample_total pop k raw) as [entity_index Hs]
  end.
  { rewrite length_range. destruct (r mod 4 =? 0); lia. }
  rewrite Hs. cbn [bind]. eauto.
Qed.

(** ** The spawn loop *)

Lemma add_entity_size (grid : Grid.t) (position : Position) (entity : Entity) :
  Grid.get_size (Grid.add_entity grid position entity) = Grid.get_size grid.
Proof. unfold Grid.add_entity. destruct (Grid.in_bounds _ _); reflexivity. Qed.

Lemma add_entity_other (grid : Grid.t) (position k : Position) (entity : Entity) :
  k <> position ->
  Grid.get_entity (Grid.add_entity grid position entity) k =
  Grid.get_entity grid k.
Proof.
  intros Hk. unfold Grid.add_entity, Grid.get_entity.
  destruct (Grid.in_bounds _ _); simpl; auto.
  apply get_set_other. congruence.
Qed.

Lemma spawn_loop_size (plan : list (Z * string)) (self : Game.t) :
  Grid.get_size (Game.get_grid (Game.state_of (Game.spawn_loop self plan))) =
  Grid.get_size (Game.get_grid self).
Proof.
  revert self. induction plan as [|[pos kind] plan IH]; intros self; simpl; auto.
  destruct (Game._create_entity kind) as [new_entity|]; simpl; auto.
  rewrite IH. apply add_entity_size.
Qed.

(** The loop touches no cell other than those of its plan. *)
Lemma spawn_loop_frame (plan : list (Z * string)) (self : Game.t) (k : Position) :
  (forall pos kind, In (pos, kind) plan ->
     k <> mkPosition pos (Grid.get_size (Game.get_grid self) - 1)) ->
  Grid.get_entity
    (Game.get_grid (Game.state_of (Game.spawn_loop self plan))) k =
  Grid.get_entity (Game.get_grid self) k.
Proof.
  revert self. induction plan as [|[pos kind] plan IH]; intros self Hk; simpl; auto.
  destruct (Game._create_entity kind) as [new_entity|]; simpl; auto.
  rewrite IH.
  - apply add_entity_other. apply (Hk pos kind). now left.
  - intros pos' kind' Hin. simpl. rewrite add_entity_size.
    apply (Hk pos' kind'). now right.
Qed.

(** The loop over a plan is the loop over its first part followed, if
    that returned, by the loop over the rest. *)
Lemma spawn_loop_app (done rest : list (Z * string)) (self : Game.t) :
  Game.spawn_loop self (done ++ rest) =
  match Game.spawn_loop self done with
  | Game.Returned self' => Game.spawn_loop self' rest
  | Game.Raised e self' => Game.Raised e self'
  end.
Proof.
  revert self. induction done as [|[pos kind] done IH]; intros self; simpl; auto.
  destruct (Game._create_entity kind) as [new_entity|]; auto.
Qed.

Lemma create_spawnable (kind : string) :
  spawnable kind ->
  exists entity, Game._create_entity kind = Ok entity /\ display entity = kind.
Proof.
  intros [-> | [-> | ->]]; eexists; split; reflexivity.
Qed.

Lemma spawn_loop_Returned (plan : list (Z * string)) :
  forall self : Game.t,
    2 <= Grid.get_size (Game.get_grid self) ->
    NoDup (map fst plan) ->
    (forall pos kind, In (pos, kind) plan ->
       0 <= pos < Grid.get_size (Game.get_grid self) /\ spawnable kind) ->
    exists self',
      Game.spawn_loop self plan = Game.Returned self' /\
      Game._game_over self' = Game._game_over self /\
      forall pos kind, In (pos, kind) plan ->
        exists entity,
          Game._create_entity kind = Ok entity /\
          Grid.get_entity (Game.get_grid self')
            (mkPosition pos (Grid.get_size (Game.get_grid self) - 1)) =
          Some entity.
Proof.
  induction plan as [|[pos kind] plan IH]; intros self Hsize Hnd Hplan.
  - exists self. simpl. repeat split; auto. intros ? ? [].
  - simpl. inversion Hnd as [|? ? Hpos Hnd']; subst.
    destruct (Hplan pos kind (or_introl eq_refl)) as [Hcol Hkind].
    destruct (create_spawnable kind Hkind) as (entity & Hcreate & _).
    rewrite Hcreate.
    set (top := Grid.get_size (Game.get_grid self) - 1) in *.
    set (self1 := Game.set_grid self
                    (Grid.add_entity (Game.get_grid self)
                       (mkPosition pos top) entity)).
    assert (Hsize1 : Grid.get_size (Game.get_grid self1) =
                     Grid.get_size (Game.get_grid self))
      by apply add_entity_size.
    destruct (IH self1) as (self' & Hloop & Hover & Hall); auto.
    { now rewrite Hsize1. }
    { intros pos' kind' Hin. rewrite Hsize1. apply Hplan. now right. }
    exists self'. split; [exact Hloop|]. split; [exact Hover|].
    intros pos' kind' [Heq | Hin].
    + injection Heq as <- <-. exists entity. split; auto.
      replace self' with (Game.state_of (Game.spawn_loop self1 plan))
        by now rewrite Hloop.
      rewrite spawn_loop_frame.
      * unfold self1, Grid.add_entity, Grid.get_entity; simpl.
        assert (Hin : Grid.in_bounds (Game.get_grid self) (mkPosition pos top)
                      = true).
        { apply in_bounds_iff. unfold in_grid, Grid.get_size in *; simpl.
          subst top. unfold Grid.get_size. lia. }
        rewrite Hin. simpl. apply get_set_same.
      * intros pos' kind' Hin Heq. rewrite Hsize1 in Heq.
        injection Heq as ->. apply Hpos.
        apply (in_map fst) in Hin. exact Hin.
    + rewrite Hsize1 in Hall. now apply Hall.
Qed.

(** ** Spawning on the losing tick *)

Lemma gravity_size (self : Game.t) :
  Grid.get_size (Game.get_grid (Game.gravity self)) =
  Grid.get_size (Game.get_grid self).
Proof.
  unfold Game.gravity. destruct (Game.gravity_loop _ _) as [new_entities lost].
  destruct lost; reflexivity.
Qed.

Lemma gravity_game_over (self : Game.t) :
  snd (Game.gravity_loop (Grid.get_entities (Game._grid self)) []) = true ->
  Game._game_over (Game.gravity self) = true.
Proof.
  unfold Game.gravity. destruct (Game.gravity_loop _ _) as [new_entities lost].
  simpl. intros ->. reflexivity.
Qed.

(** On a grid of at least 3 columns, a tick whose gravity pass sets
    [game_over] goes on to draw a plan of spawns and to add every entity
    of the plan to the top row. *)
Lemma step_spawns_when_lost (self : Game.t) (rnd : Draws) :
  snd (Game.gravity_loop (Grid.get_entities (Game._grid self)) []) = true ->
  3 <= Grid.get_size (Game.get_grid self) ->
  exists plan self',
    Game.spawn_plan (Grid.get_size (Game.get_grid self)) rnd = Ok plan /\
    Game.step self rnd = Game.Returned self' /\
    Game._game_over self' = true /\
    forall pos kind, In (pos, kind) plan ->
      exists entity,
        Game._create_entity kind = Ok entity /\
        Grid.get_entity (Game.get_grid self')
          (mkPosition pos (Grid.get_size (Game.get_grid self) - 1)) =
        Some entity.
Proof.
  intros Hlost Hsize.
  destruct (spawn_plan_total _ rnd Hsize) as [plan Hplan].
  destruct (spawn_plan_Ok _ _ _ Hplan) as (_ & Hnd & Hcols).
  destruct (spawn_loop_Returned plan (Game.gravity self))
    as (self' & Hloop & Hover & Hall).
  { rewrite gravity_size. lia. }
  { exact Hnd. }
  { rewrite gravity_size. exact Hcols. }
  exists plan, self'. split; [exact Hplan|]. split; [|split].
  - unfold Game.step, Game.generate_entities.
    rewrite gravity_size, Hplan. exact Hloop.
  - rewrite Hover. now apply gravity_game_over.
  - rewrite gravity_size in Hall. exact Hall.
Qed.

Lemma rotate_grid_populated (sup : Support) (self : Game.t) (direction : string) :
  populated_size self ->
  populated_size (Game.state_of (Game.rotate_grid sup self direction)).
Proof.
  intros Hp. unfold Game.rotate_grid.
  destruct (Game.next_pos sup direction) as [np|]; simpl; auto.
  destruct Hp as [Hnil | Hsize].
  - unfold Game.get_grid in Hnil. rewrite Hnil. simpl. now left.
  - destruct (Game.rotate_loop _ _ _ _); simpl; now right.
Qed.

Lemma step_populated (self : Game.t) (rnd : Draws) :
  populated_size self -> populated_size (Game.state_of (Game.step self rnd)).
Proof.
  intros Hp. unfold Game.step, Game.generate_entities.
  destruct (Game.spawn_plan _ _) as [plan|] eqn:Hplan; simpl.
  - right. apply spawn_plan_Ok in Hplan. rewrite spawn_loop_size. tauto.
  - destruct Hp as [Hnil | Hsize].
    + left. unfold Game.gravity, Game.get_grid in *. rewrite Hnil. reflexivity.
    + right. now rewrite gravity_size.
Qed.

Lemma fire_loop_size (sup : Support) (shot_type : string) (x : Z) (ys : list Z)
  (self : Game.t) :
  Grid.get_size (Game.get_grid (Game.fire_loop sup self shot_type x ys)) =
  Grid.get_size (Game.get_grid self).
Proof.
  induction ys as [|y ys IH]; simpl; auto.
  destruct (Grid.get_entity _ _) as [entity|]; auto.
  destruct (isinstance entity Blocker); auto.
  destruct (isinstance entity Destroyable).
  { destruct (String.eqb shot_type (DESTROY sup)); auto.
    apply remove_entity_size. }
  destruct (isinstance entity Collectable); auto.
  destruct (String.eqb shot_type (COLLECT sup)); auto.
  apply remove_entity_size.
Qed.

Lemma fire_loop_empty (sup : Support) (shot_type : string) (x : Z) (ys : list Z)
  (self : Game.t) :
  Grid.get_entities (Game.get_grid self) = [] ->
  Game.fire_loop sup self shot_type x ys = self.
Proof.
  intros Hnil. induction ys as [|y ys IH]; simpl; auto.
  unfold Grid.get_entity, Game.get_grid, Grid.get_entities in *.
  rewrite Hnil. exact IH.
Qed.

Lemma fire_populated (sup : Support) (self : Game.t) (shot_type : string) :
  populated_size self -> populated_size (Game.fire sup self shot_type).
Proof.
  intros [Hnil | Hsize]; unfold Game.fire.
  - left. rewrite fire_loop_empty; auto.
  - right. rewrite fire_loop_size. exact Hsize.
Qed.

Lemma run_populated (sup : Support) (calls : list call) (self : Game.t) :
  populated_size self -> populated_size (run sup self calls).
Proof.
  revert self. induction calls as [|c calls IH]; simpl; intros self Hp; auto.
  apply IH. destruct c; simpl.
  - now apply rotate_grid_populated.
  - now apply step_populated.
  - now apply fire_populated.
Qed.

(** In a game reached from a fresh one the grid holds entities only
    when it has at least 3 columns, so there a tick whose gravity pass
    sets [game_over] always goes on to spawn. *)
Lemma reachable_losing_tick_spawns (sup : Support) (size : Z)
  (calls : list call) (rnd : Draws) :
  let self := run sup (Game.init size) calls in
  snd (Game.gravity_loop (Grid.get_entities (Game._grid self)) []) = true ->
  exists plan self',
    Game.spawn_plan (Grid.get_size (Game.get_grid self)) rnd = Ok plan /\
    Game.step self rnd = Game.Returned self' /\
    Game.has_lost self' = true /\
    forall pos kind, In (pos, kind) plan ->
      exists entity,
        Game._create_entity kind = Ok entity /\
        Grid.get_entity (Game.get_grid self')
          (mkPosition pos (Grid.get_size (Game.get_grid self) - 1)) =
        Some entity.
Proof.
  intros self Hlost.
  apply step_spawns_when_lost; auto.
  destruct (run_populated sup calls (Game.init size)) as [Hnil | Hsize].
  - now left.
  - fold self in Hnil. unfold Game.get_grid in Hnil.
    rewrite Hnil in Hlost. discriminate Hlost.
  - exact Hsize.
Qed.

(** C1, as stated, fails: on a game of size 2 with a Destroyable in row 1
    the gravity pass of [step] leaves its loop by [break] and the game
    is lost, but the spawn phase raises at its first draw: [step] does
    not return and the grid is left empty, with no entity spawned. *)
Lemma step_size_2_loses_without_spawn :
  snd (Game.gravity_loop
         (Grid.get_entities (Game.get_grid small_losing_game)) []) = true /\
  Game.step small_losing_game no_draws =
    Game.Raised ValueError (Game.gravity small_losing_game) /\
  Game.has_lost (Game.gravity small_losing_game) = true /\
  Grid.get_entities (Game.get_grid (Game.gravity small_losing_game)) = [] /\
  ~ exists self', Game.step small_losing_game no_draws = Game.Returned self'.
Proof.
  repeat split. intros [self' H]. discriminate H.
Qed.

(** C1, amended. On a grid of at least 3 columns, a call of [step] whose
    gravity pass sets [game_over] (it leaves the loop by [break]) still
    runs the spawn phase in that tick: the draws are made, [step]
    returns a lost game, and every entity of the plan drawn is in the
    top row of the grid, in its column. *)
Theorem step_spawns_on_losing_tick (self : Game.t) (rnd : Draws) :
  snd (Game.gravity_loop (Grid.get_entities (Game.get_grid self)) []) = true ->
  3 <= Grid.get_size (Game.get_grid self) ->
  exists plan self',
    Game.spawn_plan (Grid.get_size (Game.get_grid self)) rnd = Ok plan /\
    Game.step self rnd = Game.Returned self' /\
    Game.has_lost self' = true /\
    forall pos kind, In (pos, kind) plan ->
      exists entity,
        Game._create_entity kind = Ok entity /\
        Grid.get_entity (Game.get_grid self')
          (mkPosition pos (Grid.get_size (Game.get_grid self) - 1)) =
        Some entity.
Proof.
  intros Hlost Hsize.
  destruct (step_spawns_when_lost self rnd Hlost Hsize)
    as (plan & self' & Hplan & Hstep & Hover & Hall).
  exists plan, self'. unfold Game.has_lost. auto.
Qed.

Lemma step_spawns_on_losing_tick_witness :
  exists plan self',
    Game.spawn_plan 5 one_destroyable = Ok plan /\
    Game.step losing_game one_destroyable = Game.Returned self' /\
    Game.has_lost self' = true /\
    forall pos kind, In (pos, kind) plan ->
      exists entity,
        Game._create_entity kind = Ok entity /\
        Grid.get_entity (Game.get_grid self') (mkPosition pos 4) = Some entity.
Proof.
  apply (step_spawns_on_losing_tick losing_game one_destroyable).
  - reflexivity.
  - simpl. lia.
Defined.

(** ** Spawning into empty cells *)

Lemma gravity_loop_below (size : Z) (items acc : Dict.t) :
  Forall (in_grid size) (Dict.keys items) ->
  Forall (fun p => get_y p < size - 1) (Dict.keys acc) ->
  Forall (fun p => get_y p < size - 1)
         (Dict.keys (fst (Game.gravity_loop items acc))).
Proof.
  revert acc. induction items as [|[p e] items IH]; simpl; intros acc Hb Hacc; auto.
  inversion Hb as [|? ? [Hx Hy] Hb']; subst.
  destruct (1 <=? get_y p + -1).
  - apply IH; auto.
    rewrite Forall_forall in *. intros k Hin.
    apply In_keys_set in Hin. destruct Hin as [-> | Hin]; auto.
    simpl. lia.
  - destruct (isinstance e Destroyable); simpl; auto.
Qed.

Lemma gravity_below (self : Game.t) :
  wf self ->
  Forall (fun p => get_y p < Grid.get_size (Game.get_grid self) - 1)
         (Dict.keys (Grid.get_entities (Game.get_grid (Game.gravity self)))).
Proof.
  intros Hwf.
  pose proof (gravity_loop_below (Game._size self)
                (Grid.get_entities (Game._grid self)) []
                (wf_bounds _ Hwf) (Forall_nil _)) as H.
  unfold Game.gravity, Grid.get_size, Game.get_grid.
  rewrite (wf_size _ Hwf).
  destruct (Game.gravity_loop _ _) as [new_entities lost].
  destruct lost; exact H.
Qed.

(** C10. In every game reached from a fresh one, [step] spawns into
    empty cells only: after the gravity pass no entity is in the top row
    y = size - 1; the columns of a plan of spawns are pairwise distinct;
    and when the loop of [generate_entities] comes to place an entity of
    the plan, having placed those before it, the cell it is placed into
    holds nothing. *)
Theorem spawn_never_overwrites (sup : Support) (size : Z) (calls : list call)
  (rnd : Draws) :
  let self := run sup (Game.init size) calls in
  let fallen_game := Game.gravity self in
  let top := Grid.get_size (Game.get_grid self) - 1 in
  (forall p,
     In p (Dict.keys (Grid.get_entities (Game.get_grid fallen_game))) ->
     get_y p < top) /\
  forall plan,
    Game.spawn_plan (Grid.get_size (Game.get_grid fallen_game)) rnd = Ok plan ->
    Game.step self rnd = Game.spawn_loop fallen_game plan /\
    NoDup (map fst plan) /\
    forall done pos kind rest self',
      plan = done ++ (pos, kind) :: rest ->
      Game.spawn_loop fallen_game done = Game.Returned self' ->
      Grid.get_entity (Game.get_grid self') (mkPosition pos top) = None.
Proof.
  intros self fallen_game top.
  assert (Hwf : wf self) by apply run_wf, wf_init.
  pose proof (gravity_below self Hwf) as Hbelow.
  rewrite Forall_forall in Hbelow.
  split; [exact Hbelow|].
  intros plan Hplan.
  destruct (spawn_plan_Ok _ _ _ Hplan) as (_ & Hnd & _).
  split; [|split; [exact Hnd|]].
  - unfold Game.step, Game.generate_entities. fold fallen_game.
    now rewrite Hplan.
  - intros done pos kind rest self' Hsplit Hloop.
    replace self' with (Game.state_of (Game.spawn_loop fallen_game done))
      by now rewrite Hloop.
    assert (Htop : Grid.get_size (Game.get_grid fallen_game) - 1 = top)
      by (unfold fallen_game; now rewrite gravity_size).
    rewrite spawn_loop_frame.
    + apply get_None_iff. intros Hin. apply Hbelow in Hin. simpl in Hin.
      fold top in Hin. lia.
    + rewrite Htop. intros pos' kind' Hin Heq. injection Heq as ->.
      subst plan. rewrite map_app in Hnd. simpl in Hnd.
      apply NoDup_remove_2 in Hnd. apply Hnd.
      apply in_or_app. left. apply (in_map fst) in Hin. exact Hin.
Qed.

(** * Further properties of the engine *)

(** ** The grid as a store *)

Lemma get_In (d : Dict.t) (k : Position) (v : Entity) :
  Dict.get d k = Some v -> In (k, v) d.
Proof.
  induction d as [|[k' v'] d IH]; simpl; [discriminate|].
  destruct (Position_eqb k' k) eqn:E.
  - apply Position_eqb_eq in E. intros [= ->]. subst. now left.
  - intros H. right. now apply IH.
Qed.

Lemma In_get (d : Dict.t) (k : Position) (v : Entity) :
  NoDup (Dict.keys d) -> In (k, v) d -> Dict.get d k = Some v.
Proof.
  induction d as [|[k' v'] d IH]; simpl; intros Hnd Hin; [contradiction|].
  inversion Hnd as [|? ? Hk Hnd']; subst.
  destruct Hin as [[= -> ->] | Hin].
  - now rewrite Position_eqb_refl.
  - destruct (Position_eqb k' k) eqn:E; [|auto].
    apply Position_eqb_eq in E. subst k'.
    exfalso. apply Hk. apply (in_map fst) in Hin. exact Hin.
Qed.

Lemma get_pop_same (d : Dict.t) (k : Position) :
  NoDup (Dict.keys d) -> Dict.get (Dict.pop d k) k = None.
Proof.
  induction d as [|[k' v'] d IH]; simpl; intros Hnd; auto.
  inversion Hnd as [|? ? Hk Hnd']; subst.
  destruct (Position_eqb k' k) eqn:E; simpl.
  - apply Position_eqb_eq in E. subst k'. now apply get_None_iff.
  - rewrite E. auto.
Qed.

Lemma get_pop_other (d : Dict.t) (k k' : Position) :
  k' <> k -> Dict.get (Dict.pop d k) k' = Dict.get d k'.
Proof.
  intros Hne. induction d as [|[k0 v0] d IH]; simpl; auto.
  destruct (Position_eqb k0 k) eqn:E; simpl.
  - apply Position_eqb_eq in E. subst k0.
    assert (E' : Position_eqb k k' = false) by (apply Position_eqb_neq; congruence).
    now rewrite E'.
  - now rewrite IH.
Qed.

Lemma pop_missing (d : Dict.t) (k : Position) :
  Dict.get d k = None -> Dict.pop d k = d.
Proof.
  induction d as [|[k' v'] d IH]; simpl; auto.
  destruct (Position_eqb k' k); [discriminate|].
  intros H. now rewrite IH.
Qed.

Lemma pop_snoc (d : Dict.t) (k : Position) (v : Entity) :
  Dict.get d k = None -> Dict.pop (d ++ [(k, v)]) k = d.
Proof.
  induction d as [|[k' v'] d IH]; simpl.
  - now rewrite Position_eqb_refl.
  - destruct (Position_eqb k' k); [discriminate|].
    intros H. now rewrite IH.
Qed.

(** X1. An entity added at a position within the bounds is what
    [get_entity] returns there afterwards, and [serialise] lists its
    coordinates with its display character. *)
Theorem add_entity_then_get (grid : Grid.t) (position : Position)
  (entity : Entity) :
  Grid.in_bounds grid position = true ->
  Grid.get_entity (Grid.add_entity grid position entity) position =
    Some entity /\
  In ((get_x position, get_y position), display entity)
     (Grid.serialise (Grid.add_entity grid position entity)).
Proof.
  intros Hb.
  assert (Hget : Grid.get_entity (Grid.add_entity grid position entity)
                   position = Some entity).
  { unfold Grid.add_entity, Grid.get_entity. rewrite Hb. simpl.
    apply get_set_same. }
  split; [exact Hget|].
  apply get_In in Hget. unfold Grid.serialise.
  apply (in_map (fun '(position, entity) =>
                   ((get_x position, get_y position), display entity)))
    in Hget.
  exact Hget.
Qed.

Lemma add_entity_then_get_witness :
  Grid.get_entity
    (Grid.add_entity (Grid.init 5) (mkPosition 4 4) Blocker) (mkPosition 4 4) =
    Some Blocker /\
  In ((4, 4), BLOCKER)
     (Grid.serialise (Grid.add_entity (Grid.init 5) (mkPosition 4 4) Blocker)).
Proof.
  apply (add_entity_then_get (Grid.init 5) (mkPosition 4 4) Blocker).
  reflexivity.
Defined.

(** X2. [add_entity] changes no cell but the one it is given, and
    changes nothing at all when that position is out of bounds: every
    other look-up, and every look-up after an out-of-bounds call,
    answers as before. *)
Theorem add_entity_elsewhere (grid : Grid.t) (position k : Position)
  (entity : Entity) :
  k <> position \/ Grid.in_bounds grid position = false ->
  Grid.get_entity (Grid.add_entity grid position entity) k =
  Grid.get_entity grid k.
Proof.
  intros [Hk | Hb].
  - now apply add_entity_other.
  - unfold Grid.add_entity. now rewrite Hb.
Qed.

Lemma add_entity_elsewhere_witness :
  Grid.get_entity
    (Grid.add_entity (Game.get_grid losing_game) (mkPosition 2 0) Blocker)
    (mkPosition 2 1) =
  Grid.get_entity (Game.get_grid losing_game) (mkPosition 2 1).
Proof.
  apply (add_entity_elsewhere (Game.get_grid losing_game) (mkPosition 2 0)
           (mkPosition 2 1) Blocker).
  right. reflexivity.
Defined.

(** X3. After [remove_entity] the position holds nothing and every
    other position holds what it held. *)
Theorem remove_entity_then_get (grid : Grid.t) (position k : Position) :
  NoDup (Dict.keys (Grid.get_entities grid)) ->
  Grid.get_entity (Grid.remove_entity grid position) k =
  if Position_eqb k position then None else Grid.get_entity grid k.
Proof.
  intros Hnd. unfold Grid.remove_entity, Grid.get_entity, Dict.mem.
  destruct (Position_eqb k position) eqn:E.
  - apply Position_eqb_eq in E. subst k.
    destruct (Dict.get (Grid._entities grid) position) eqn:G; simpl; auto.
    now apply get_pop_same.
  - apply Position_eqb_neq in E.
    destruct (Dict.get (Grid._entities grid) position); simpl; auto.
    now apply get_pop_other.
Qed.

Lemma remove_entity_then_get_witness :
  Grid.get_entity
    (Grid.remove_entity (Game.get_grid losing_game) (mkPosition 2 1))
    (mkPosition 2 1) = None.
Proof.
  apply (remove_entity_then_get (Game.get_grid losing_game)
           (mkPosition 2 1) (mkPosition 2 1)).
  apply losing_game_wf.
Defined.

(** Removing at a position that holds nothing leaves the grid as it is. *)
Lemma remove_entity_missing (grid : Grid.t) (position : Position) :
  Grid.get_entity grid position = None ->
  Grid.remove_entity grid position = grid.
Proof.
  unfold Grid.get_entity, Grid.remove_entity, Dict.mem. intros H.
  now rewrite H.
Qed.

(** X4. Adding an entity at a free position and removing it again gives
    back the grid, entry for entry, whether or not the position is within
    the bounds. *)
Theorem add_then_remove_entity (grid : Grid.t) (position : Position)
  (entity : Entity) :
  Grid.get_entity grid position = None ->
  Grid.remove_entity (Grid.add_entity grid position entity) position = grid.
Proof.
  intros Hfree. unfold Grid.add_entity.
  destruct (Grid.in_bounds grid position).
  - unfold Grid.remove_entity, Dict.mem, Grid.get_entity in *. simpl.
    rewrite get_set_same. simpl.
    rewrite set_fresh by now apply get_None_iff.
    rewrite pop_snoc by assumption.
    destruct grid; reflexivity.
  - now apply remove_entity_missing.
Qed.

Lemma add_then_remove_entity_witness :
  Grid.remove_entity
    (Grid.add_entity (Game.get_grid losing_game) (mkPosition 0 3) Collectable)
    (mkPosition 0 3) =
  Game.get_grid losing_game.
Proof.
  apply (add_then_remove_entity (Game.get_grid losing_game) (mkPosition 0 3)
           Collectable).
  reflexivity.
Defined.

(** X5. [serialise] is a faithful picture of the grid: it lists the
    coordinates (x, y) with a character exactly when the cell (x, y)
    holds the entity displayed by that character, and it lists no
    coordinates twice. *)
Theorem serialise_get_entity (grid : Grid.t) (x y : Z) (tag : string) :
  NoDup (Dict.keys (Grid.get_entities grid)) ->
  (In ((x, y), tag) (Grid.serialise grid) <->
   exists entity,
     Grid.get_entity grid (mkPosition x y) = Some entity /\
     display entity = tag) /\
  NoDup (map fst (Grid.serialise grid)).
Proof.
  intros Hnd. unfold Grid.serialise, Grid.get_entity, Grid.get_entities in *.
  split; [split|].
  - intros Hin. apply in_map_iff in Hin.
    destruct Hin as ([[px py] e] & Heq & Hin). injection Heq as <- <- <-.
    exists e. split; auto. now apply In_get.
  - intros (e & Hget & <-). apply get_In in Hget.
    apply in_map_iff. exists (mkPosition x y, e). auto.
  - rewrite map_map.
    rewrite (map_ext _ (fun item : Position * Entity =>
                          (fun p => (get_x p, get_y p)) (fst item)))
      by (intros [p e]; reflexivity).
    rewrite <- (map_map fst (fun p => (get_x p, get_y p))).
    apply NoDup_map_on; auto.
    intros [x1 y1] [x2 y2] _ _ Heq. simpl in Heq. congruence.
Qed.

Lemma serialise_get_entity_witness :
  (In ((3, 4), COLLECTABLE) (Grid.serialise (Game.get_grid losing_game)) <->
   exists entity,
     Grid.get_entity (Game.get_grid losing_game) (mkPosition 3 4) =
       Some entity /\
     display entity = COLLECTABLE) /\
  NoDup (map fst (Grid.serialise (Game.get_grid losing_game))).
Proof.
  apply (serialise_get_entity (Game.get_grid losing_game) 3 4 COLLECTABLE).
  apply losing_game_wf.
Defined.

(** ** What holds in every game reached from a fresh one *)

(** X6. In every game reached from a fresh one, every position at which
    the grid holds an entity passes [Grid.in_bounds]: no entity is ever
    stored in the player's row or outside the square. *)
Theorem reachable_entities_in_bounds (sup : Support) (size : Z)
  (calls : list call) (position : Position) (entity : Entity) :
  let self := run sup (Game.init size) calls in
  Grid.get_entity (Game.get_grid self) position = Some entity ->
  Grid.in_bounds (Game.get_grid self) position = true.
Proof.
  intros self Hget.
  assert (Hwf : wf self) by apply run_wf, wf_init.
  apply in_bounds_iff. unfold Game.get_grid. rewrite (wf_size _ Hwf).
  apply get_In in Hget. apply (in_map fst) in Hget.
  pose proof (wf_bounds _ Hwf) as Hb. rewrite Forall_forall in Hb.
  now apply Hb.
Qed.

Lemma reachable_entities_in_bounds_witness :
  Grid.in_bounds (Game.get_grid (run a3_support (Game.init 5) falling_calls))
    (mkPosition 0 1) = true.
Proof.
  apply (reachable_entities_in_bounds a3_support 5 falling_calls
           (mkPosition 0 1) Destroyable).
  reflexivity.
Defined.

Lemma In_set (d : Dict.t) (k : Position) (v : Entity)
  (item : Position * Entity) :
  In item (Dict.set d k v) -> item = (k, v) \/ In item d.
Proof.
  induction d as [|[k' v'] d IH]; simpl.
  - intros [<- | []]. now left.
  - destruct (Position_eqb k' k) eqn:E; simpl.
    + apply Position_eqb_eq in E. subst k'.
      intros [<- | H]; auto.
    + intros [<- | H]; auto. apply IH in H. tauto.
Qed.

Lemma In_pop (d : Dict.t) (k : Position) (item : Position * Entity) :
  In item (Dict.pop d k) -> In item d.
Proof.
  induction d as [|[k' v'] d IH]; simpl; auto.
  destruct (Position_eqb k' k); simpl; intuition.
Qed.

Lemma no_player_set (d : Dict.t) (k : Position) (v : Entity) :
  no_player d -> v <> Player -> no_player (Dict.set d k v).
Proof.
  unfold no_player. rewrite !Forall_forall. intros Hd Hv item Hin.
  apply In_set in Hin. destruct Hin as [-> | Hin]; auto.
Qed.

Lemma no_player_pop (d : Dict.t) (k : Position) :
  no_player d -> no_player (Dict.pop d k).
Proof.
  unfold no_player. rewrite !Forall_forall. intros Hd item Hin.
  apply In_pop in Hin. auto.
Qed.

Lemma create_entity_not_player (display : string) :
  Game._create_entity display <> Ok Player.
Proof.
  unfold Game._create_entity. simpl.
  destruct (String.eqb display DESTROYABLE); [discriminate|].
  destruct (String.eqb display COLLECTABLE); [discriminate|].
  destruct (String.eqb display BLOCKER); discriminate.
Qed.

Lemma rotate_loop_no_player (size dx : Z) (items acc new_entities : Dict.t) :
  Game.rotate_loop size dx items acc = Ok new_entities ->
  no_player items -> no_player acc -> no_player new_entities.
Proof.
  revert acc. induction items as [|[p e] items IH]; simpl; intros acc Hr Hi Hacc.
  - now injection Hr as <-.
  - inversion Hi as [|? ? He Hi']; subst.
    apply bind_Ok in Hr. destruct Hr as (x & _ & Hr).
    apply (IH _ Hr Hi'). now apply no_player_set.
Qed.

Lemma gravity_loop_no_player (items acc : Dict.t) :
  no_player items -> no_player acc ->
  no_player (fst (Game.gravity_loop items acc)).
Proof.
  revert acc. induction items as [|[p e] items IH]; simpl; intros acc Hi Hacc; auto.
  inversion Hi as [|? ? He Hi']; subst.
  destruct (1 <=? get_y p + -1).
  - apply IH; auto. now apply no_player_set.
  - destruct (isinstance e Destroyable); simpl; auto.
Qed.

Lemma gravity_no_player (self : Game.t) :
  no_player (Grid.get_entities (Game.get_grid self)) ->
  no_player (Grid.get_entities (Game.get_grid (Game.gravity self))).
Proof.
  intros H. unfold Game.gravity.
  pose proof (gravity_loop_no_player _ [] H (Forall_nil _)) as G.
  unfold Game.get_grid in G.
  destruct (Game.gravity_loop _ _) as [new_entities lost].
  destruct lost; exact G.
Qed.

Lemma spawn_loop_no_player (plan : list (Z * string)) (self : Game.t) :
  no_player (Grid.get_entities (Game.get_grid self)) ->
  no_player (Grid.get_entities
               (Game.get_grid (Game.state_of (Game.spawn_loop self plan)))).
Proof.
  revert self. induction plan as [|[pos kind] plan IH]; simpl; intros self H; auto.
  destruct (Game._create_entity kind) as [new_entity|] eqn:E; simpl; auto.
  apply IH. simpl. unfold Grid.add_entity.
  destruct (Grid.in_bounds _ _); simpl; auto.
  apply no_player_set; auto.
  intros ->. now apply (create_entity_not_player kind).
Qed.

Lemma fire_loop_no_player (sup : Support) (shot_type : string) (x : Z)
  (ys : list Z) (self : Game.t) :
  no_player (Grid.get_entities (Game.get_grid self)) ->
  no_player (Grid.get_entities
               (Game.get_grid (Game.fire_loop sup self shot_type x ys))).
Proof.
  intros H. induction ys as [|y ys IH]; simpl; auto.
  assert (Hrm : no_player (Grid.get_entities
                  (Grid.remove_entity (Game._grid self) (mkPosition x y)))).
  { unfold Grid.remove_entity. destruct (Dict.mem _ _); simpl; auto.
    now apply no_player_pop. }
  destruct (Grid.get_entity _ _) as [entity|]; auto.
  destruct (isinstance entity Blocker); auto.
  destruct (isinstance entity Destroyable).
  { destruct (String.eqb shot_type (DESTROY sup)); auto. }
  destruct (isinstance entity Collectable); auto.
  destruct (String.eqb shot_type (COLLECT sup)); auto.
Qed.

Lemma exec_no_player (sup : Support) (self : Game.t) (c : call) :
  no_player (Grid.get_entities (Game.get_grid self)) ->
  no_player (Grid.get_entities (Game.get_grid (Game.state_of (exec sup self c)))).
Proof.
  intros H. destruct c; simpl.
  - unfold Game.rotate_grid.
    destruct (Game.next_pos sup direction) as [np|]; simpl; auto.
    destruct (Game.rotate_loop _ _ _ _) as [new_entities|] eqn:E; simpl; auto.
    apply (rotate_loop_no_player _ _ _ _ _ E); [exact H | constructor].
  - unfold Game.step, Game.generate_entities.
    apply gravity_no_player in H.
    destruct (Game.spawn_plan _ _) as [plan|]; simpl; auto.
    now apply spawn_loop_no_player.
  - unfold Game.fire. now apply fire_loop_no_player.
Qed.

Lemma run_no_player (sup : Support) (calls : list call) (self : Game.t) :
  no_player (Grid.get_entities (Game.get_grid self)) ->
  no_player (Grid.get_entities (Game.get_grid (run sup self calls))).
Proof.
  revert self. induction calls as [|c calls IH]; simpl; intros self H; auto.
  apply IH. now apply exec_no_player.
Qed.

(** X7. [_create_entity] returns a Player for no string at all, and in
    no game reached from a fresh one does the grid hold a Player, so
    [serialise] never hands the character 'P' to the view. *)
Theorem grid_never_holds_player (sup : Support) (size : Z)
  (calls : list call) (position : Position) (display : string) (x y : Z) :
  let grid := Game.get_grid (run sup (Game.init size) calls) in
  Game._create_entity display <> Ok Player /\
  Grid.get_entity grid position <> Some Player /\
  ~ In ((x, y), PLAYER) (Grid.serialise grid).
Proof.
  intros grid.
  pose proof (run_no_player sup calls (Game.init size) (Forall_nil _)) as H.
  fold grid in H. unfold no_player in H. rewrite Forall_forall in H.
  split; [apply create_entity_not_player|]. split.
  - intros Hget. apply get_In in Hget. apply H in Hget. now apply Hget.
  - unfold Grid.serialise. rewrite in_map_iff.
    intros ([p e] & Heq & Hin). apply H in Hin. simpl in Hin.
    injection Heq as _ _ Hd. destruct e; try discriminate Hd. now apply Hin.
Qed.

(** ** The two terminal predicates *)

Lemma fire_loop_game_over (sup : Support) (shot_type : string) (x : Z)
  (ys : list Z) (self : Game.t) :
  Game._game_over (Game.fire_loop sup self shot_type x ys) =
  Game._game_over self.
Proof.
  induction ys as [|y ys IH]; simpl; auto.
  destruct (Grid.get_entity _ _) as [entity|]; auto.
  destruct (isinstance entity Blocker); auto.
  destruct (isinstance entity Destroyable).
  { destruct (String.eqb shot_type (DESTROY sup)); reflexivity. }
  destruct (isinstance entity Collectable); auto.
  destruct (String.eqb shot_type (COLLECT sup)); reflexivity.
Qed.

Lemma gravity_keeps_lost (self : Game.t) :
  Game._game_over self = true -> Game._game_over (Game.gravity self) = true.
Proof.
  unfold Game.gravity. destruct (Game.gravity_loop _ _) as [new_entities lost].
  destruct lost; simpl; auto.
Qed.

Lemma exec_keeps_lost (sup : Support) (self : Game.t) (c : call) :
  Game._game_over self = true ->
  Game._game_over (Game.state_of (exec sup self c)) = true.
Proof.
  intros H. destruct c; simpl.
  - unfold Game.rotate_grid.
    destruct (_ <- Game.next_pos sup direction ;; _); simpl; exact H.
  - unfold Game.step, Game.generate_entities.
    apply gravity_keeps_lost in H.
    destruct (Game.spawn_plan _ _) as [plan|]; simpl; auto.
    destruct (spawn_loop_counters plan (Game.gravity self)) as (_ & _ & _ & K).
    simpl in K. now rewrite K.
  - unfold Game.fire. rewrite fire_loop_game_over. exact H.
Qed.

(** X8. A lost game stays lost: once [has_lost] answers true, it answers
    true after any further calls of [rotate_grid], [step] and [fire],
    those that raise included. *)
Theorem has_lost_is_final (sup : Support) (self : Game.t) (calls : list call) :
  Game.has_lost self = true ->
  Game.has_lost (run sup self calls) = true.
Proof.
  unfold Game.has_lost. revert self.
  induction calls as [|c calls IH]; simpl; intros self H; auto.
  apply IH. now apply exec_keeps_lost.
Qed.

Lemma has_lost_is_final_witness :
  Game.has_lost
    (run a3_support (Game.gravity losing_game)
       [Fire (COLLECT a3_support); RotateGrid "A"; Step one_destroyable]) = true.
Proof.
  apply (has_lost_is_final a3_support (Game.gravity losing_game)).
  reflexivity.
Defined.

Lemma counters_step_le (self self' : Game.t) :
  counters_step self self' -> counters_le self self'.
Proof. unfold counters_step, counters_le. lia. Qed.

Lemma run_counters_le (sup : Support) (calls : list call) (self : Game.t) :
  counters_le self (run sup self calls).
Proof.
  revert self. induction calls as [|c calls IH]; simpl; intros self.
  - unfold counters_le. lia.
  - pose proof (counters_step_le _ _ (exec_counters sup self c)) as H1.
    pose proof (IH (Game.state_of (exec sup self c))) as H2.
    unfold counters_le in *. lia.
Qed.

(** X9. A won game stays won: nothing resets [num_collected], so once
    [has_won] answers true it answers true after any further calls. *)
Theorem has_won_is_final (sup : Support) (self : Game.t) (calls : list call) :
  Game.has_won sup self = true ->
  Game.has_won sup (run sup self calls) = true.
Proof.
  unfold Game.has_won. rewrite !Z.leb_le. intros H.
  pose proof (run_counters_le sup calls self) as Hle.
  unfold counters_le in Hle. lia.
Qed.

Lemma has_won_is_final_witness :
  Game.has_won a3_support
    (run a3_support (Game.set_num_collected (Game.init 5) 7)
       [Step no_draws; Fire (DESTROY a3_support)]) = true.
Proof.
  apply (has_won_is_final a3_support (Game.set_num_collected (Game.init 5) 7)).
  reflexivity.
Defined.

(** X10. A game reached from a fresh one is won only after at least
    [COLLECTION_TARGET] shots were fired. *)
Theorem has_won_needs_shots (sup : Support) (size : Z) (calls : list call) :
  let self := run sup (Game.init size) calls in
  Game.has_won sup self = true ->
  COLLECTION_TARGET sup <= Game.get_total_shots self.
Proof.
  intros self. unfold Game.has_won, Game.get_total_shots.
  rewrite Z.leb_le. intros H.
  assert (Hok : counters_ok self).
  { apply run_counters_ok. unfold counters_ok; simpl; lia. }
  unfold counters_ok in Hok. lia.
Qed.

Lemma has_won_needs_shots_witness :
  COLLECTION_TARGET short_support <=
  Game.get_total_shots
    (run short_support (Game.init 5)
       [Step one_collectable; Fire (COLLECT short_support)]).
Proof.
  apply (has_won_needs_shots short_support 5
           [Step one_collectable; Fire (COLLECT short_support)]).
  reflexivity.
Defined.

(** ** The player *)

Lemma fire_loop_static (sup : Support) (shot_type : string) (x : Z)
  (ys : list Z) (self : Game.t) :
  Game._size (Game.fire_loop sup self shot_type x ys) = Game._size self /\
  Game._player_position (Game.fire_loop sup self shot_type x ys) =
  Game._player_position self.
Proof.
  induction ys as [|y ys IH]; simpl; auto.
  destruct (Grid.get_entity _ _) as [entity|]; auto.
  destruct (isinstance entity Blocker); auto.
  destruct (isinstance entity Destroyable).
  { destruct (String.eqb shot_type (DESTROY sup)); auto. }
  destruct (isinstance entity Collectable); auto.
  destruct (String.eqb shot_type (COLLECT sup)); auto.
Qed.

Lemma spawn_loop_static (plan : list (Z * string)) (self : Game.t) :
  Game._size (Game.state_of (Game.spawn_loop self plan)) = Game._size self /\
  Game._player_position (Game.state_of (Game.spawn_loop self plan)) =
  Game._player_position self.
Proof.
  revert self. induction plan as [|[pos kind] plan IH]; simpl; intros self; auto.
  destruct (Game._create_entity kind) as [new_entity|]; simpl; auto.
  apply (IH (Game.set_grid self _)).
Qed.

Lemma exec_static (sup : Support) (self : Game.t) (c : call) :
  Game._size (Game.state_of (exec sup self c)) = Game._size self /\
  Game._player_position (Game.state_of (exec sup self c)) =
  Game._player_position self.
Proof.
  destruct c; simpl.
  - unfold Game.rotate_grid.
    destruct (_ <- Game.next_pos sup direction ;; _); simpl; auto.
  - unfold Game.step, Game.generate_entities.
    assert (Hg : Game._size (Game.gravity self) = Game._size self /\
                 Game._player_position (Game.gravity self) =
                 Game._player_position self).
    { unfold Game.gravity.
      destruct (Game.gravity_loop _ _) as [new_entities lost].
      destruct lost; simpl; auto. }
    destruct Hg as [Hg1 Hg2].
    destruct (Game.spawn_plan _ _) as [plan|]; simpl; auto.
    destruct (spawn_loop_static plan (Game.gravity self)) as [K1 K2].
    rewrite K1, K2. auto.
  - unfold Game.fire.
    destruct (fire_loop_static sup shot_type
                (get_x (Game._player_position self))
                (range 1 (Game._size self))
                (Game.set_total_shots self (Game._total_shots self + 1)))
      as [K1 K2].
    simpl in *. auto.
Qed.

Lemma run_static (sup : Support) (calls : list call) (self : Game.t) :
  Game._size (run sup self calls) = Game._size self /\
  Game._player_position (run sup self calls) = Game._player_position self.
Proof.
  revert self. induction calls as [|c calls IH]; simpl; intros self; auto.
  destruct (IH (Game.state_of (exec sup self c))) as [H1 H2].
  destruct (exec_static sup self c) as [K1 K2].
  rewrite H1, H2. auto.
Qed.

(** X11. In every game reached from a fresh one of size at least 1 the
    player stands where the constructor put it, at (size // 2, 0); this
    column is one of the columns of the grid, and the grid holds no
    entity at the player's position. *)
Theorem player_position_fixed (sup : Support) (size : Z) (calls : list call) :
  1 <= size ->
  let self := run sup (Game.init size) calls in
  Game.get_player_position self = mkPosition (size / 2) 0 /\
  0 <= get_x (Game.get_player_position self) < Grid.get_size (Game.get_grid self) /\
  Grid.get_entity (Game.get_grid self) (Game.get_player_position self) = None.
Proof.
  intros Hsize self.
  destruct (run_static sup calls (Game.init size)) as [Hs Hp].
  fold self in Hs, Hp. simpl in Hs, Hp.
  assert (Hwf : wf self) by apply run_wf, wf_init.
  unfold Game.get_player_position, Grid.get_size, Game.get_grid.
  rewrite Hp, (wf_size _ Hwf), Hs. simpl.
  split; [reflexivity|]. split.
  - split; [apply Z.div_pos; lia | apply Z.div_lt_upper_bound; lia].
  - apply get_None_iff. intros Hin.
    pose proof (wf_bounds _ Hwf) as Hb. rewrite Forall_forall in Hb.
    apply Hb in Hin. destruct Hin as [_ Hy]. simpl in Hy. lia.
Qed.

Lemma player_position_fixed_witness :
  let self := run a3_support (Game.init 5) falling_calls in
  Game.get_player_position self = mkPosition 2 0 /\
  0 <= get_x (Game.get_player_position self) < Grid.get_size (Game.get_grid self) /\
  Grid.get_entity (Game.get_grid self) (Game.get_player_position self) = None.
Proof.
  apply (player_position_fixed a3_support 5 falling_calls). lia.
Defined.

(** ** The tick *)

(** X12. [step] returns normally exactly on grids of at least 3 columns;
    on smaller grids it raises, and what it raises is [ValueError]. *)
Theorem step_returns_iff (self : Game.t) (rnd : Draws) :
  ((exists self', Game.step self rnd = Game.Returned self') <->
   3 <= Grid.get_size (Game.get_grid self)) /\
  ((exists self', Game.step self rnd = Game.Raised ValueError self') <->
   Grid.get_size (Game.get_grid self) < 3).
Proof.
  assert (Hsmall : Grid.get_size (Game.get_grid self) < 3 ->
            Game.step self rnd = Game.Raised ValueError (Game.gravity self)).
  { intros Hs. unfold Game.step, Game.generate_entities, Game.spawn_plan,
      Random.randint.
    rewrite gravity_size.
    destruct (Grid.get_size (Game.get_grid self) - 3 <? 0) eqn:E;
      [reflexivity | apply Z.ltb_ge in E; lia]. }
  assert (Hbig : 3 <= Grid.get_size (Game.get_grid self) ->
            exists self', Game.step self rnd = Game.Returned self').
  { intros Hs.
    destruct (spawn_plan_total _ rnd Hs) as [plan Hplan].
    destruct (spawn_plan_Ok _ _ _ Hplan) as (_ & Hnd & Hcols).
    destruct (spawn_loop_Returned plan (Game.gravity self))
      as (self' & Hloop & _).
    { rewrite gravity_size. lia. }
    { exact Hnd. }
    { rewrite gravity_size. exact Hcols. }
    exists self'. unfold Game.step, Game.generate_entities.
    now rewrite gravity_size, Hplan. }
  split; split.
  - intros [self' H].
    destruct (Z_lt_le_dec (Grid.get_size (Game.get_grid self)) 3) as [Hs | Hs];
      [|exact Hs].
    rewrite (Hsmall Hs) in H. discriminate H.
  - exact Hbig.
  - intros [self' H].
    destruct (Z_lt_le_dec (Grid.get_size (Game.get_grid self)) 3) as [Hs | Hs];
      [exact Hs|].
    destruct (Hbig Hs) as [self'' H']. rewrite H' in H. discriminate H.
  - intros Hs. eexists. now apply Hsmall.
Qed.

Lemma length_combine_same {A B : Type} (l : list A) (l' : list B) :
  List.length l = List.length l' -> map snd (combine l l') = l'.
Proof.
  revert l'. induction l as [|a l IH]; intros [|b l']; simpl; intros H;
    try discriminate; auto.
  f_equal. apply IH. lia.
Qed.

(** X13. A plan of spawns drawn without an exception holds the kinds of
    [entity_count <= size - 3] draws from [ENTITY_TYPES], followed by at
    most one Blocker, one column for each: a tick adds at most
    [size - 2] entities and at most one Blocker, which comes last. *)
Theorem spawn_plan_shape (size : Z) (rnd : Draws) (plan : list (Z * string)) :
  Game.spawn_plan size rnd = Ok plan ->
  exists core blockers,
    map snd plan = core ++ blockers /\
    Forall (fun kind => In kind ENTITY_TYPES) core /\
    (blockers = [] \/ blockers = [BLOCKER]) /\
    Z.of_nat (List.length core) <= size - 3 /\
    Z.of_nat (List.length plan) <= size - 2.
Proof.
  unfold Game.spawn_plan. intros H.
  apply bind_Ok in H. destruct H as (entity_count & Hc & H).
  apply bind_Ok in H. destruct H as (entities & He & H).
  apply bind_Ok in H. destruct H as (r & _ & H).
  apply bind_Ok in H. destruct H as (entity_index & Hs & H).
  injection H as <-.
  apply randint_Ok in Hc.
  apply choices_incl in He. destruct He as [Hkinds Hlen].
  apply sample_Ok in Hs; [|apply NoDup_range].
  destruct Hs as (_ & _ & Hslen).
  exists entities, (if r mod 4 =? 0 then [BLOCKER] else []).
  assert (Hsame : List.length entity_index =
                  List.length (if r mod 4 =? 0 then entities ++ [BLOCKER]
                               else entities)).
  { destruct (r mod 4 =? 0); [rewrite length_app; simpl|]; lia. }
  split; [|split; [exact Hkinds|split; [|split]]].
  - rewrite length_combine_same by exact Hsame.
    destruct (r mod 4 =? 0); [reflexivity | now rewrite app_nil_r].
  - destruct (r mod 4 =? 0); auto.
  - lia.
  - rewrite length_combine, Hsame, Nat.min_id.
    destruct (r mod 4 =? 0); [rewrite length_app; simpl|]; lia.
Qed.

Lemma spawn_plan_shape_witness :
  exists core blockers,
    map snd [(1, BLOCKER)] = core ++ blockers /\
    Forall (fun kind => In kind ENTITY_TYPES) core /\
    (blockers = [] \/ blockers = [BLOCKER]) /\
    Z.of_nat (List.length core) <= 7 - 3 /\
    Z.of_nat (List.length [(1, BLOCKER)]) <= 7 - 2.
Proof.
  apply (spawn_plan_shape 7
           (mkDraws 5 (fun i => i) 3 (fun i => (3 * i + 1)%nat))
           [(1, BLOCKER)]).
  reflexivity.
Defined.

(** X14. When no entity is in row 1 (every new y is at least 1), the
    gravity pass moves every entity one row down: afterwards the grid
    holds, in the same order, every entry it held with its y lowered by
    one, and [has_lost] and the three counters answer as before. *)
Theorem gravity_moves_all_down (self : Game.t) :
  NoDup (Dict.keys (Grid.get_entities (Game.get_grid self))) ->
  Forall (fun item => 1 <= get_y (fst item) + snd MOVE)
         (Grid.get_entities (Game.get_grid self)) ->
  Grid.get_entities (Game.get_grid (Game.gravity self)) =
    map fallen (Grid.get_entities (Game.get_grid self)) /\
  Game.has_lost (Game.gravity self) = Game.has_lost self /\
  Game.get_num_collected (Game.gravity self) = Game.get_num_collected self /\
  Game.get_num_destroyed (Game.gravity self) = Game.get_num_destroyed self /\
  Game.get_total_shots (Game.gravity self) = Game.get_total_shots self.
Proof.
  intros Hnd Hall.
  assert (Hloop : Game.gravity_loop (Grid.get_entities (Game.get_grid self)) []
                  = (map fallen (Grid.get_entities (Game.get_grid self)), false)).
  { rewrite <- (app_nil_r (Grid.get_entities (Game.get_grid self))) at 1.
    rewrite gravity_loop_carry; auto.
    simpl. now apply fallen_keys_NoDup. }
  rewrite gravity_entities, gravity_has_lost, Hloop. simpl.
  split; [reflexivity|]. split; [reflexivity|]. apply gravity_counters.
Qed.

Lemma gravity_moves_all_down_witness :
  Grid.get_entities (Game.get_grid (Game.gravity collectable_ahead)) =
    [(mkPosition 2 1, Collectable)] /\
  Game.has_lost (Game.gravity collectable_ahead) = false /\
  Game.get_num_collected (Game.gravity collectable_ahead) = 0 /\
  Game.get_num_destroyed (Game.gravity collectable_ahead) = 0 /\
  Game.get_total_shots (Game.gravity collectable_ahead) = 0.
Proof.
  apply (gravity_moves_all_down collectable_ahead).
  - simpl. repeat constructor. simpl. tauto.
  - simpl. repeat constructor. simpl. lia.
Defined.

Lemma gravity_loop_lost_iff (items acc : Dict.t) :
  snd (Game.gravity_loop items acc) = true <->
  exists p, In (p, Destroyable) items /\ get_y p + snd MOVE < 1.
Proof.
  revert acc. induction items as [|[q e] items IH]; simpl; intros acc.
  - split; [discriminate | intros (p & [] & _)].
  - destruct (1 <=? get_y q + -1) eqn:E.
    + apply Z.leb_le in E. rewrite IH. split.
      * intros (p & Hin & Hy). eauto.
      * intros (p & [[= -> ->] | Hin] & Hy); [lia | eauto].
    + apply Z.leb_gt in E. destruct e; simpl.
      * rewrite IH. split.
        -- intros (p & Hin & Hy). eauto.
        -- intros (p & [Heq | Hin] & Hy); [discriminate Heq | eauto].
      * split; auto. intros _. exists q. auto.
      * rewrite IH. split.
        -- intros (p & Hin & Hy). eauto.
        -- intros (p & [Heq | Hin] & Hy); [discriminate Heq | eauto].
      * rewrite IH. split.
        -- intros (p & Hin & Hy). eauto.
        -- intros (p & [Heq | Hin] & Hy); [discriminate Heq | eauto].
Qed.

(** X15. After a call of [step], returned or raised, the game is lost
    exactly when it was lost before or the grid held a Destroyable whose
    new y is below 1; entities of other kinds that fall off never end the
    game, and neither do the draws of the spawn phase. *)
Theorem step_loses_iff (self : Game.t) (rnd : Draws) :
  Game.has_lost (Game.state_of (Game.step self rnd)) = true <->
  Game.has_lost self = true \/
  exists p, In (p, Destroyable) (Grid.get_entities (Game.get_grid self)) /\
            get_y p + snd MOVE < 1.
Proof.
  unfold Game.has_lost.
  assert (Hstep : Game._game_over (Game.state_of (Game.step self rnd)) =
                  Game._game_over (Game.gravity self)).
  { unfold Game.step, Game.generate_entities.
    destruct (Game.spawn_plan _ _) as [plan|]; simpl; auto.
    now destruct (spawn_loop_counters plan (Game.gravity self))
      as (_ & _ & _ & K). }
  rewrite Hstep. rewrite <- gravity_loop_lost_iff with (acc := []).
  unfold Game.gravity, Game.get_grid.
  destruct (Game.gravity_loop _ _) as [new_entities lost].
  destruct lost; simpl.
  - tauto.
  - split; [auto | intros [H | H]; [exact H | discriminate H]].
Qed.

(** Every entity that a tick leaves below the top row was one row
    higher before the tick. *)
Lemma gravity_loop_In (items acc : Dict.t) (entry : Position * Entity) :
  In entry (fst (Game.gravity_loop items acc)) ->
  In entry acc \/ exists item, In item items /\ fallen item = entry.
Proof.
  revert acc. induction items as [|[q e] items IH]; simpl; intros acc Hin; auto.
  destruct (1 <=? get_y q + -1).
  - apply IH in Hin. destruct Hin as [Hin | (item & Hitem & Heq)].
    + apply In_set in Hin. destruct Hin as [-> | Hin]; auto.
      right. exists (q, e). split; auto.
    + right. eauto.
  - destruct (isinstance e Destroyable); simpl in Hin; auto.
    apply IH in Hin. destruct Hin as [Hin | (item & Hitem & Heq)]; eauto.
Qed.

(** X16. [step] moves no entity sideways and creates none below the top
    row: an entity that the grid holds after the call, returned or
    raised, is in the top row or was, before the call, in the same
    column one row higher. *)
Theorem step_entities_come_from_above (self : Game.t) (rnd : Draws)
  (position : Position) (entity : Entity) :
  NoDup (Dict.keys (Grid.get_entities (Game.get_grid self))) ->
  Grid.get_entity (Game.get_grid (Game.state_of (Game.step self rnd)))
    position = Some entity ->
  get_y position = Grid.get_size (Game.get_grid self) - 1 \/
  Grid.get_entity (Game.get_grid self)
    (mkPosition (get_x position) (get_y position + 1)) = Some entity.
Proof.
  intros Hnd Hget.
  destruct (Z.eq_dec (get_y position) (Grid.get_size (Game.get_grid self) - 1))
    as [Htop | Htop]; [now left | right].
  assert (Hgrav : Grid.get_entity (Game.get_grid (Game.gravity self)) position
                  = Some entity).
  { unfold Game.step, Game.generate_entities in Hget.
    destruct (Game.spawn_plan _ _) as [plan|]; simpl in Hget; auto.
    rewrite spawn_loop_frame in Hget; auto.
    intros pos kind _ Heq. rewrite gravity_size in Heq.
    subst position. simpl in Htop. lia. }
  apply get_In in Hgrav.
  assert (Hin : In (position, entity)
                   (fst (Game.gravity_loop
                           (Grid.get_entities (Game._grid self)) []))).
  { unfold Game.gravity in Hgrav.
    destruct (Game.gravity_loop _ _) as [new_entities lost].
    destruct lost; exact Hgrav. }
  apply gravity_loop_In in Hin.
  destruct Hin as [[] | ([q e] & Hitem & Heq)].
  unfold fallen in Heq. simpl in Heq. injection Heq as <- <-. simpl.
  apply In_get; auto.
  replace (get_y q + -1 + 1) with (get_y q) by lia.
  destruct q; exact Hitem.
Qed.

Lemma step_entities_come_from_above_witness :
  get_y (mkPosition 2 1) = Grid.get_size (Game.get_grid collectable_ahead) - 1 \/
  Grid.get_entity (Game.get_grid collectable_ahead) (mkPosition 2 (1 + 1)) =
    Some Collectable.
Proof.
  apply (step_entities_come_from_above collectable_ahead no_draws
           (mkPosition 2 1) Collectable).
  - simpl. repeat constructor. simpl. tauto.
  - reflexivity.
Defined.

(** ** Shots that hit, shots that do not *)

(** The game that [fire] leaves behind after a hit. *)
Lemma hit_state_of_fire (sup : Support) (self : Game.t) (y0 : Z) (entity : Entity)
  (shot_type : string) :
  lowest_occupied self (get_x (Game.get_player_position self)) y0 entity ->
  (entity = Destroyable /\ shot_type = DESTROY sup) \/
  (entity = Collectable /\ shot_type = COLLECT sup) ->
  Game.fire sup self shot_type =
  let shot := Game.set_total_shots self (Game._total_shots self + 1) in
  Game.set_grid
    (if isinstance entity Destroyable
     then Game.set_num_destroyed shot (Game._num_destroyed self + 1)
     else Game.set_num_collected shot (Game._num_collected self + 1))
    (Grid.remove_entity (Game._grid self)
       (mkPosition (get_x (Game.get_player_position self)) y0)).
Proof.
  intros (Hy0 & Hsome & Hnone) Hhit.
  unfold Game.fire.
  set (self1 := Game.set_total_shots self (Game._total_shots self + 1)).
  change (Game._player_position self1) with (Game.get_player_position self).
  change (Game._size self1) with (Game._size self).
  rewrite (fire_loop_lowest sup self1 shot_type _ y0 _ entity
             (Z.to_nat (y0 - 1)) 1 eq_refl Hy0 Hnone Hsome)
    by (destruct Hhit as [[-> _] | [-> _]]; discriminate).
  simpl. change (Game._grid self1) with (Game._grid self). rewrite Hsome.
  destruct Hhit as [[-> ->] | [-> ->]]; simpl; now rewrite String.eqb_refl.
Qed.

(** X17. When the lowest occupied cell of the player's column holds a
    Destroyable and the shot is [DESTROY], or a Collectable and the shot
    is [COLLECT], then after [fire] the shot is counted, [num_destroyed]
    or [num_collected] respectively is one higher and the other one as
    before, the cell is empty, every other cell holds what it held, and
    [has_lost] answers as before. *)
Theorem fire_hit (sup : Support) (self : Game.t) (y0 : Z) (entity : Entity)
  (shot_type : string) (k : Position) :
  NoDup (Dict.keys (Grid.get_entities (Game.get_grid self))) ->
  lowest_occupied self (get_x (Game.get_player_position self)) y0 entity ->
  (entity = Destroyable /\ shot_type = DESTROY sup) \/
  (entity = Collectable /\ shot_type = COLLECT sup) ->
  let self' := Game.fire sup self shot_type in
  let cell := mkPosition (get_x (Game.get_player_position self)) y0 in
  Game.get_total_shots self' = Game.get_total_shots self + 1 /\
  Game.get_num_destroyed self' =
    Game.get_num_destroyed self +
    (if isinstance entity Destroyable then 1 else 0) /\
  Game.get_num_collected self' =
    Game.get_num_collected self +
    (if isinstance entity Destroyable then 0 else 1) /\
  Game.has_lost self' = Game.has_lost self /\
  Grid.get_entity (Game.get_grid self') k =
    if Position_eqb k cell then None
    else Grid.get_entity (Game.get_grid self) k.
Proof.
  intros Hnd Hlow Hhit self' cell.
  assert (Hsome : Grid.get_entity (Game._grid self) cell = Some entity)
    by apply Hlow.
  unfold self'. rewrite (hit_state_of_fire sup self y0 entity shot_type Hlow Hhit).
  fold cell.
  assert (Hcell : Grid.get_entity (Grid.remove_entity (Game._grid self) cell) k
                  = if Position_eqb k cell then None
                    else Grid.get_entity (Game._grid self) k).
  { destruct (Position_eqb k cell) eqn:E.
    - apply Position_eqb_eq in E. subst k.
      unfold Grid.remove_entity, Grid.get_entity, Dict.mem in *.
      rewrite Hsome. simpl. now apply get_pop_same.
    - apply Position_eqb_neq in E.
      unfold Grid.remove_entity, Grid.get_entity, Dict.mem in *.
      rewrite Hsome. simpl. now apply get_pop_other. }
  unfold Game.get_total_shots, Game.get_num_destroyed, Game.get_num_collected,
    Game.has_lost.
  destruct Hhit as [[-> _] | [-> _]]; simpl;
    (repeat split; try lia; try reflexivity; exact Hcell).
Qed.

Lemma fire_hit_witness :
  let self' := Game.fire a3_support collectable_ahead (COLLECT a3_support) in
  Game.get_total_shots self' = 1 /\
  Game.get_num_destroyed self' = 0 /\
  Game.get_num_collected self' = 1 /\
  Game.has_lost self' = false /\
  Grid.get_entity (Game.get_grid self') (mkPosition 2 2) = None.
Proof.
  apply (fire_hit a3_support collectable_ahead 2 Collectable
           (COLLECT a3_support) (mkPosition 2 2)).
  - simpl. repeat constructor. simpl. tauto.
  - unfold lowest_occupied. simpl. split; [lia|]. split; [reflexivity|].
    intros y Hy. assert (y = 1) by lia. subst y. reflexivity.
  - right. split; reflexivity.
Defined.

Lemma fire_loop_all_empty (sup : Support) (self : Game.t) (shot_type : string)
  (x : Z) (ys : list Z) :
  (forall y, In y ys ->
     Grid.get_entity (Game._grid self) (mkPosition x y) = None) ->
  Game.fire_loop sup self shot_type x ys = self.
Proof.
  induction ys as [|y ys IH]; simpl; intros H; auto.
  rewrite H by now left. apply IH. intros y' Hy'. apply H. now right.
Qed.

(** X18. A shot into a column whose lowest occupied cell is a Blocker,
    or into a column with no entity at all, is counted and has no other
    effect, whatever its type. *)
Theorem fire_absorbed (sup : Support) (self : Game.t) (y0 : Z)
  (shot_type : string) :
  lowest_occupied self (get_x (Game.get_player_position self)) y0 Blocker \/
  (forall y, 1 <= y < Game._size self ->
     Grid.get_entity (Game._grid self)
       (mkPosition (get_x (Game.get_player_position self)) y) = None) ->
  Game.fire sup self shot_type =
  Game.set_total_shots self (Game._total_shots self + 1).
Proof.
  intros H. unfold Game.fire.
  set (self1 := Game.set_total_shots self (Game._total_shots self + 1)).
  change (Game._player_position self1) with (Game.get_player_position self).
  change (Game._size self1) with (Game._size self).
  destruct H as [(Hy0 & Hsome & Hnone) | Hempty].
  - rewrite (fire_loop_lowest sup self1 shot_type _ y0 _ Blocker
               (Z.to_nat (y0 - 1)) 1 eq_refl Hy0 Hnone Hsome)
      by discriminate.
    simpl. change (Game._grid self1) with (Game._grid self).
    now rewrite Hsome.
  - apply fire_loop_all_empty. intros y Hy. apply In_range in Hy.
    now apply Hempty.
Qed.

Lemma fire_absorbed_witness :
  Game.fire a3_support blocker_ahead (DESTROY a3_support) =
  Game.set_total_shots blocker_ahead 1.
Proof.
  apply (fire_absorbed a3_support blocker_ahead 1 (DESTROY a3_support)).
  left. unfold lowest_occupied. simpl. split; [lia|]. split; [reflexivity|].
  intros y Hy. lia.
Defined.

Lemma remove_entity_other (grid : Grid.t) (position k : Position) :
  k <> position ->
  Grid.get_entity (Grid.remove_entity grid position) k =
  Grid.get_entity grid k.
Proof.
  intros Hk. unfold Grid.remove_entity, Grid.get_entity.
  destruct (Dict.mem _ _); simpl; auto. now apply get_pop_other.
Qed.

Lemma length_pop (d : Dict.t) (k : Position) :
  (List.length (Dict.pop d k) <= List.length d <=
   S (List.length (Dict.pop d k)))%nat.
Proof.
  induction d as [|[k' v'] d IH]; simpl; [lia|].
  destruct (Position_eqb k' k); simpl; lia.
Qed.

Lemma fire_loop_column (sup : Support) (shot_type : string) (x : Z)
  (ys : list Z) (self : Game.t) (k : Position) :
  let self' := Game.fire_loop sup self shot_type x ys in
  (get_x k <> x ->
   Grid.get_entity (Game.get_grid self') k =
   Grid.get_entity (Game.get_grid self) k) /\
  (List.length (Grid.get_entities (Game.get_grid self')) <=
   List.length (Grid.get_entities (Game.get_grid self)) <=
   S (List.length (Grid.get_entities (Game.get_grid self'))))%nat.
Proof.
  induction ys as [|y ys IH]; simpl; [split; auto; lia|].
  assert (Hrm : (get_x k <> x ->
                 Grid.get_entity
                   (Grid.remove_entity (Game._grid self) (mkPosition x y)) k =
                 Grid.get_entity (Game.get_grid self) k) /\
                (List.length (Grid.get_entities
                   (Grid.remove_entity (Game._grid self) (mkPosition x y))) <=
                 List.length (Grid.get_entities (Game.get_grid self)) <=
                 S (List.length (Grid.get_entities
                   (Grid.remove_entity (Game._grid self) (mkPosition x y)))))%nat).
  { split.
    - intros Hk. apply remove_entity_other. intros ->. now apply Hk.
    - unfold Grid.remove_entity, Game.get_grid, Grid.get_entities.
      destruct (Dict.mem _ _); simpl; [apply length_pop | lia]. }
  assert (Hsame : (get_x k <> x ->
                   Grid.get_entity (Game.get_grid self) k =
                   Grid.get_entity (Game.get_grid self) k) /\
                  (List.length (Grid.get_entities (Game.get_grid self)) <=
                   List.length (Grid.get_entities (Game.get_grid self)) <=
                   S (List.length (Grid.get_entities (Game.get_grid self))))%nat)
    by (split; auto; lia).
  destruct (Grid.get_entity (Game._grid self) (mkPosition x y))
    as [entity|]; auto.
  destruct (isinstance entity Blocker); auto.
  destruct (isinstance entity Destroyable).
  { destruct (String.eqb shot_type (DESTROY sup)); auto. }
  destruct (isinstance entity Collectable); auto.
  destruct (String.eqb shot_type (COLLECT sup)); auto.
Qed.

(** X19. [fire] touches the player's column only, and takes at most one
    entity off the grid: every cell of another column holds after the
    shot what it held before, and the grid has as many entities as
    before or one less. *)
Theorem fire_only_in_player_column (sup : Support) (self : Game.t)
  (shot_type : string) (k : Position) :
  get_x k <> get_x (Game.get_player_position self) ->
  let self' := Game.fire sup self shot_type in
  Grid.get_entity (Game.get_grid self') k =
    Grid.get_entity (Game.get_grid self) k /\
  (List.length (Grid.get_entities (Game.get_grid self')) <=
   List.length (Grid.get_entities (Game.get_grid self)) <=
   S (List.length (Grid.get_entities (Game.get_grid self'))))%nat.
Proof.
  intros Hk self'. unfold self', Game.fire.
  destruct (fire_loop_column sup shot_type
              (get_x (Game._player_position self))
              (range 1 (Game._size self))
              (Game.set_total_shots self (Game._total_shots self + 1)) k)
    as [H1 H2].
  split; [now apply H1 | exact H2].
Qed.

Lemma fire_only_in_player_column_witness :
  let self' := Game.fire a3_support losing_game (DESTROY a3_support) in
  Grid.get_entity (Game.get_grid self') (mkPosition 3 4) =
    Grid.get_entity (Game.get_grid losing_game) (mkPosition 3 4) /\
  (List.length (Grid.get_entities (Game.get_grid self')) <=
   List.length (Grid.get_entities (Game.get_grid losing_game)) <=
   S (List.length (Grid.get_entities (Game.get_grid self'))))%nat.
Proof.
  apply (fire_only_in_player_column a3_support losing_game
           (DESTROY a3_support) (mkPosition 3 4)).
  vm_compute. discriminate.
Defined.

(** ** Rotation there and back *)

(** X20. In a well-formed game, a rotation followed by the rotation
    with the opposite x-offset gives back the game: both calls return,
    and the grid is again what it was, entry for entry. *)
Theorem rotate_grid_there_and_back (sup : Support) (self : Game.t)
  (direction direction' : string) (offset offset' : Z * Z) :
  wf self ->
  Game.next_pos sup direction = Ok offset ->
  Game.next_pos sup direction' = Ok offset' ->
  fst offset + fst offset' = 0 ->
  exists self1,
    Game.rotate_grid sup self direction = Game.Returned self1 /\
    Game.rotate_grid sup self1 direction' = Game.Returned self.
Proof.
  intros Hwf Hnp Hnp' Hopp.
  pose proof (rotate_grid_wf sup self direction Hwf) as Hwf1.
  rewrite (rotate_grid_rotated sup self direction offset Hwf Hnp) in Hwf1.
  simpl in Hwf1.
  eexists. split; [exact (rotate_grid_rotated sup self direction offset Hwf Hnp)|].
  rewrite (rotate_grid_rotated sup _ direction' offset' Hwf1 Hnp').
  unfold Game.set_grid, Grid.renew_entities, Grid.get_entities.
  cbn [Game._grid Game._size Grid._entities Grid._size
       Game._game_over Game._player_position Game._num_collected
       Game._num_destroyed Game._total_shots].
  rewrite map_map.
  rewrite (map_ext _ (rotated (Game._size self) 0))
    by (intros item; rewrite rotated_rotated; now rewrite Hopp).
  rewrite rotated_none by apply Hwf.
  destruct self as [? ? [? ?] ? ? ? ?]; reflexivity.
Qed.

Lemma rotate_grid_there_and_back_witness :
  exists self1,
    Game.rotate_grid a3_support losing_game "A" = Game.Returned self1 /\
    Game.rotate_grid a3_support self1 "D" = Game.Returned losing_game.
Proof.
  apply (rotate_grid_there_and_back a3_support losing_game "A" "D"
           (-1, 0) (1, 0)).
  - exact losing_game_wf.
  - reflexivity.
  - reflexivity.
  - reflexivity.
Defined.

(** ** The geometry of the view *)

Lemma floordiv_Ok_iff (a b q : Z) :
  0 < b -> (py_floordiv a b = Ok q <-> q * b <= a < q * b + b).
Proof.
  intros Hb. unfold py_floordiv.
  destruct (b =? 0) eqn:E; [apply Z.eqb_eq in E; lia|].
  pose proof (Z.div_mod a b ltac:(lia)) as Hdm.
  pose proof (Z.mod_pos_bound a b Hb) as Hm.
  split.
  - intros [= <-]. nia.
  - intros Hq. f_equal. symmetry.
    apply (Z.div_unique a b q (a - q * b)); lia.
Qed.

(** X21. On a field whose cells have positive width and height,
    [pixel_to_position] undoes [get_bbox]: a pixel is converted to the
    cell (x, y) exactly when it lies in the bounding box of that cell,
    the left and upper edges included, the right and lower ones not. *)
Theorem pixel_to_position_bbox (self : AbstractField.t) (x y px py : Z) :
  0 < AbstractField._cell_width self ->
  0 < AbstractField._cell_height self ->
  let '(x_min, y_min, x_max, y_max) := AbstractField.get_bbox self (x, y) in
  AbstractField.pixel_to_position self (px, py) = Ok (x, y) <->
  (x_min <= px < x_max /\ y_min <= py < y_max).
Proof.
  intros Hw Hh. unfold AbstractField.get_bbox, AbstractField.pixel_to_position.
  rewrite <- (floordiv_Ok_iff px _ x Hw), <- (floordiv_Ok_iff py _ y Hh).
  split.
  - intros H. apply bind_Ok in H. destruct H as (x' & Hx & H).
    apply bind_Ok in H. destruct H as (y' & Hy & H).
    injection H as -> ->. auto.
  - intros [-> ->]. reflexivity.
Qed.

(** A field of 7 by 7 cells on a canvas of 400 by 400 pixels. *)
Lemma pixel_to_position_bbox_witness :
  AbstractField.pixel_to_position
    (AbstractField.mk 7 7 400 400 57 57) (120, 350) = Ok (2, 6) <->
  (114 <= 120 < 171 /\ 342 <= 350 < 399).
Proof.
  apply (pixel_to_position_bbox (AbstractField.mk 7 7 400 400 57 57)
           2 6 120 350); reflexivity.
Defined.

(** X22. On a field whose cells have positive width and height, the
    centre that [get_position_center] computes for a cell is a pixel of
    that cell: [pixel_to_position] converts it back to the cell. *)
Theorem position_center_in_cell (self : AbstractField.t) (x y : Z) :
  0 < AbstractField._cell_width self ->
  0 < AbstractField._cell_height self ->
  AbstractField.pixel_to_position self
    (AbstractField.get_position_center self (x, y)) = Ok (x, y).
Proof.
  intros Hw Hh.
  unfold AbstractField.get_position_center, AbstractField.get_bbox,
    AbstractField.pixel_to_position.
  set (cw := AbstractField._cell_width self) in *.
  set (ch := AbstractField._cell_height self) in *.
  assert (Hx : py_floordiv ((x * cw + (x * cw + cw)) / 2) cw = Ok x).
  { apply floordiv_Ok_iff; auto.
    pose proof (Z.div_mod (x * cw + (x * cw + cw)) 2 ltac:(lia)).
    pose proof (Z.mod_pos_bound (x * cw + (x * cw + cw)) 2 ltac:(lia)).
    lia. }
  assert (Hy : py_floordiv ((y * ch + (y * ch + ch)) / 2) ch = Ok y).
  { apply floordiv_Ok_iff; auto.
    pose proof (Z.div_mod (y * ch + (y * ch + ch)) 2 ltac:(lia)).
    pose proof (Z.mod_pos_bound (y * ch + (y * ch + ch)) 2 ltac:(lia)).
    lia. }
  rewrite Hx, Hy. reflexivity.
Qed.

Lemma position_center_in_cell_witness :
  AbstractField.pixel_to_position (AbstractField.mk 7 7 400 400 57 57)
    (AbstractField.get_position_center
       (AbstractField.mk 7 7 400 400 57 57) (3, 0)) = Ok (3, 0).
Proof.
  apply (position_center_in_cell (AbstractField.mk 7 7 400 400 57 57) 3 0);
    reflexivity.
Defined.

(** X23. A field narrower than its number of columns (0 <= width <
    cols, with some rows) is built by the constructor without an error,
    but its cells have width 0, so [pixel_to_position] raises
    [ZeroDivisionError] for every pixel. *)
Theorem narrow_field_raises (rows cols width height : Z) (pixel : Z * Z) :
  0 <= width < cols ->
  rows <> 0 ->
  exists self,
    AbstractField.init rows cols width height = Ok self /\
    AbstractField.pixel_to_position self pixel = Raise ZeroDivisionError.
Proof.
  intros Hw Hr. unfold AbstractField.init, py_floordiv.
  destruct (cols =? 0) eqn:Ec; [apply Z.eqb_eq in Ec; lia|].
  destruct (rows =? 0) eqn:Er; [apply Z.eqb_eq in Er; contradiction|].
  simpl. eexists. split; [reflexivity|].
  unfold AbstractField.pixel_to_position, py_floordiv. destruct pixel as [px py].
  simpl. rewrite Z.div_small by lia. reflexivity.
Qed.

Lemma narrow_field_raises_witness :
  exists self,
    AbstractField.init 7 7 5 400 = Ok self /\
    AbstractField.pixel_to_position self (3, 100) = Raise ZeroDivisionError.
Proof.
  apply (narrow_field_raises 7 7 5 400 (3, 100)); lia.
Defined.

(** X24. On a field built by the constructor with a non-negative width
    and height, the bounding box of every cell of the field (0 <= x <
    cols, 0 <= y < rows) lies on the canvas, between 0 and the width
    and between 0 and the height. *)
Theorem bbox_on_canvas (rows cols width height x y : Z)
  (self : AbstractField.t) :
  AbstractField.init rows cols width height = Ok self ->
  0 <= width -> 0 <= height ->
  0 <= x < cols -> 0 <= y < rows ->
  let '(x_min, y_min, x_max, y_max) := AbstractField.get_bbox self (x, y) in
  0 <= x_min <= x_max /\ x_max <= width /\
  0 <= y_min <= y_max /\ y_max <= height.
Proof.
  intros Hinit Hw Hh Hx Hy.
  unfold AbstractField.init in Hinit.
  apply bind_Ok in Hinit. destruct Hinit as (cw & Hcw & Hinit).
  apply bind_Ok in Hinit. destruct Hinit as (ch & Hch & Hinit).
  injection Hinit as <-. unfold AbstractField.get_bbox. simpl.
  unfold py_floordiv in Hcw, Hch.
  destruct (cols =? 0); [discriminate Hcw|]. injection Hcw as <-.
  destruct (rows =? 0); [discriminate Hch|]. injection Hch as <-.
  pose proof (Z.mul_div_le width cols ltac:(lia)) as H1.
  pose proof (Z.mul_div_le height rows ltac:(lia)) as H2.
  pose proof (Z.div_pos width cols Hw ltac:(lia)) as H3.
  pose proof (Z.div_pos height rows Hh ltac:(lia)) as H4.
  nia.
Qed.

Lemma bbox_on_canvas_witness :
  let '(x_min, y_min, x_max, y_max) :=
    AbstractField.get_bbox (AbstractField.mk 7 7 400 400 57 57) (6, 6) in
  0 <= x_min <= x_max /\ x_max <= 400 /\
  0 <= y_min <= y_max /\ y_max <= 400.
Proof.
  apply (bbox_on_canvas 7 7 400 400 6 6 (AbstractField.mk 7 7 400 400 57 57));
    try reflexivity; lia.
Defined.
